(** * ClangBuildAnalyzer: the event model of BuildEvents.h and the driver of main.cpp

    The development embeds

    - [BuildEvents.h]: the event kinds, the two handle types, the event record,
      the handle-indexed vector and the bidirectional name table;
    - [main.cpp]: [ReadFileToString], [CompareIgnoreNewlines], [PrintUsage],
      [RunStart], [FiletimeToTime], [JsonFileFinder], [ReadSessionFile],
      [RunAnalyze], [RunOneTest], [RunTests], [ProcessCommands] and [main];

    and, for the two translation units whose bodies are declared but not part
    of these sources ([ParseBuildEvents], [DoAnalysis]), a model that follows
    the written specification.  Those definitions are marked as such. *)

From Stdlib Require Import ZArith Lia List Bool Ascii String Permutation.
From Stdlib Require Import Structures.OrderedTypeEx Sorting.Sorted.
From stdpp Require Import base option list gmap strings.

Import ListNotations.

(* ===================================================================== *)
(** * BuildEvents.h *)
(* ===================================================================== *)

(** [enum class BuildEventType] *)
Inductive BuildEventType : Set :=
  | kUnknown
  | kCompiler
  | kFrontend
  | kBackend
  | kParseFile
  | kParseTemplate
  | kParseClass
  | kInstantiateClass
  | kInstantiateFunction
  | kOptModule
  | kOptFunction.

(** The enumerator values, in declaration order. *)
Definition BuildEventType_code (t : BuildEventType) : nat :=
  match t with
  | kUnknown => 0 | kCompiler => 1 | kFrontend => 2 | kBackend => 3
  | kParseFile => 4 | kParseTemplate => 5 | kParseClass => 6
  | kInstantiateClass => 7 | kInstantiateFunction => 8
  | kOptModule => 9 | kOptFunction => 10
  end%nat.

Definition BuildEventType_of_code (n : nat) : option BuildEventType :=
  match n with
  | 0 => Some kUnknown | 1 => Some kCompiler | 2 => Some kFrontend
  | 3 => Some kBackend | 4 => Some kParseFile | 5 => Some kParseTemplate
  | 6 => Some kParseClass | 7 => Some kInstantiateClass
  | 8 => Some kInstantiateFunction | 9 => Some kOptModule
  | 10 => Some kOptFunction | _ => None
  end%nat.

#[global] Instance BuildEventType_eq_dec : EqDecision BuildEventType.
Proof. solve_decision. Defined.

#[global] Instance BuildEventType_countable : Countable BuildEventType.
Proof.
  apply (inj_countable BuildEventType_code BuildEventType_of_code).
  intros []; reflexivity.
Defined.

(** [struct DetailIndex { int idx; explicit DetailIndex(int d = 0) }] *)
Record DetailIndex : Set := MkDetailIndex { detail_idx : Z }.

(** [struct EventIndex { int idx; explicit EventIndex(int e = -1) }] *)
Record EventIndex : Set := MkEventIndex { event_idx : Z }.

Definition DetailIndex_default : DetailIndex := MkDetailIndex 0.
Definition EventIndex_default : EventIndex := MkEventIndex (-1).

#[global] Instance DetailIndex_eq_dec : EqDecision DetailIndex.
Proof. solve_decision. Defined.

#[global] Instance EventIndex_eq_dec : EqDecision EventIndex.
Proof. solve_decision. Defined.

(** The comparison operators of both handle types compare [idx]. *)
Definition DetailIndex_eqb (a b : DetailIndex) : bool := (detail_idx a =? detail_idx b)%Z.
Definition DetailIndex_ltb (a b : DetailIndex) : bool := (detail_idx a <? detail_idx b)%Z.
Definition EventIndex_eqb (a b : EventIndex) : bool := (event_idx a =? event_idx b)%Z.
Definition EventIndex_ltb (a b : EventIndex) : bool := (event_idx a <? event_idx b)%Z.

(** Both handle types expose their position through the member [idx]; the
    vector template only relies on that member. *)
Class HasIdx (Idx : Type) := idx_of : Idx -> Z.
#[global] Instance DetailIndex_idx : HasIdx DetailIndex := detail_idx.
#[global] Instance EventIndex_idx : HasIdx EventIndex := event_idx.

(** [struct BuildEvent], with the member initialisers as the default value. *)
Record BuildEvent : Set := MkBuildEvent {
  type : BuildEventType;
  ts : Z;
  dur : Z;
  detailIndex : DetailIndex;
  parent : EventIndex;
  children : list EventIndex
}.

Definition BuildEvent_default : BuildEvent :=
  {| type := kUnknown; ts := 0; dur := 0;
     detailIndex := DetailIndex_default;
     parent := MkEventIndex (-1); children := [] |}.

(** ** [IndexedVector<T, Idx>]

    The vector is the sequence of its elements.  [operator[]] is
    [this->begin()[pos.idx]]: plain pointer arithmetic on the first element,
    without a range test.  For [0 <= pos.idx < size()] the language defines
    the result, the element at that position; for every other position it
    defines nothing. *)
Abbreviation IndexedVector T := (list T) (only parsing).

Section IndexedVector.
Context {T Idx : Type} `{HasIdx Idx}.

Definition in_range (v : IndexedVector T) (pos : Idx) : bool :=
  (0 <=? idx_of pos)%Z && (idx_of pos <? Z.of_nat (length v))%Z.

(** The element [operator[]] designates where the language defines it. *)
Definition defined_at (v : IndexedVector T) (pos : Idx) : option T :=
  if in_range v pos then v !! Z.to_nat (idx_of pos) else None.

(** What an evaluation of [v[pos]] may do. *)
Inductive Outcome : Type :=
  | Returns (x : T)
  | Aborts.

(** [operator[]]: in range the only behaviour is to return the element; out
    of range the access is undefined behaviour, which permits any outcome
    (an arbitrary value as well as a crash). *)
Definition operator_index (v : IndexedVector T) (pos : Idx) (o : Outcome) : Prop :=
  match defined_at v pos with
  | Some x => o = Returns x
  | None => True
  end.

(** [push_back], together with the handle position of the new element. *)
Definition push_back (v : IndexedVector T) (x : T) : IndexedVector T := v ++ [x].
Definition next_position (v : IndexedVector T) : Z := Z.of_nat (length v).
End IndexedVector.

Arguments Outcome : clear implicits.

(** [typedef IndexedVector<BuildEvent, EventIndex> BuildEvents] *)
Abbreviation BuildEvents := (IndexedVector BuildEvent) (only parsing).

(** ** [typedef boost::bimap<std::string, DetailIndex> BuildNames]

    A bimap is a set of (string, handle) relations seen through two maps, the
    left view keyed by the string and the right view keyed by the handle.
    Both sides are unique-keyed, so an insertion is refused when either key is
    already present. *)
Record BuildNames : Type := MkBuildNames {
  left_view : gmap string DetailIndex;
  right_view : gmap Z string
}.

Definition bimap_empty : BuildNames :=
  {| left_view := ∅; right_view := ∅ |}.

Definition bimap_size (names : BuildNames) : nat := size (left_view names).

Definition bimap_insert (s : string) (h : DetailIndex) (names : BuildNames) : BuildNames :=
  match left_view names !! s, right_view names !! detail_idx h with
  | None, None =>
      {| left_view := <[s := h]> (left_view names);
         right_view := <[detail_idx h := s]> (right_view names) |}
  | _, _ => names
  end.

(** Modelled from the spec: [append(record) -> EventHandle], the store
    operation of section 4.2; its callers are in the missing BuildEvents.cpp.
    It is [push_back] returning the handle of the record just added, handles
    being "assigned in the order events are committed to the store". *)
Definition append (events : BuildEvents) (e : BuildEvent) : BuildEvents * EventIndex :=
  (push_back events e, MkEventIndex (next_position events)).

(* ===================================================================== *)
(** * Name interner (body in BuildEvents.cpp, not part of these sources) *)
(* ===================================================================== *)

(** Modelled from the spec: the interning functions over [BuildNames] live in
    BuildEvents.cpp, which is missing; only the table type is declared in
    BuildEvents.h.  [intern] "returns the existing handle if the string was
    seen before, otherwise allocates and returns a new one"; handles are
    "densely-packed", so the new handle is the number of entries so far. *)
Definition intern (s : string) (names : BuildNames) : DetailIndex * BuildNames :=
  match left_view names !! s with
  | Some h => (h, names)
  | None =>
      let h := MkDetailIndex (Z.of_nat (bimap_size names)) in
      (h, bimap_insert s h names)
  end.

(** Modelled from the spec: [resolve] is the right view of the table, missing
    with BuildEvents.cpp. *)
Definition resolve (h : DetailIndex) (names : BuildNames) : option string :=
  right_view names !! detail_idx h.

(** The table after interning a sequence of strings, starting empty. *)
Definition intern_all (history : list string) : BuildNames :=
  foldl (fun names s => snd (intern s names)) bimap_empty history.

(* ===================================================================== *)
(** * Trace parser (body in BuildEvents.cpp, not part of these sources) *)
(* ===================================================================== *)

(** One record of the flat list a trace document decodes to: the kind its
    category/name pair maps to, the start timestamp, the duration, and the
    [name] argument when present. *)
Record TraceRecord : Type := MkTraceRecord {
  rec_type : BuildEventType;
  rec_ts : Z;
  rec_dur : Z;
  rec_detail : option string
}.

Record ParserState : Type := MkParserState {
  ps_events : BuildEvents;
  ps_names : BuildNames;
  ps_stack : list EventIndex
}.

(** Modelled from the spec: containment of the record's interval
    [[start, start+duration]] in the interval of the open event [top]
    (section 4.3, step 3); the parser is missing with BuildEvents.cpp. *)
Definition contains (events : BuildEvents) (top : EventIndex) (r : TraceRecord) : bool :=
  match defined_at events top with
  | Some p => (ts p <=? rec_ts r)%Z && (rec_ts r + rec_dur r <=? ts p + dur p)%Z
  | None => false
  end.

(** Modelled from the spec: "when a new event's interval is not contained in
    the interval at the top of the stack, pop until it is (or the stack is
    empty)". *)
Fixpoint pop_until (events : BuildEvents) (r : TraceRecord) (stack : list EventIndex)
  : list EventIndex :=
  match stack with
  | [] => []
  | top :: rest =>
      if contains events top r then stack else pop_until events r rest
  end.

Definition add_child (p : EventIndex) (c : EventIndex) (events : BuildEvents) : BuildEvents :=
  if in_range events p
  then alter (fun e => {| type := type e; ts := ts e; dur := dur e;
                          detailIndex := detailIndex e; parent := parent e;
                          children := children e ++ [c] |})
             (Z.to_nat (event_idx p)) events
  else events.

(** Modelled from the spec: one step of the tree reconstruction of section
    4.3.  The stack is popped until its top contains the new record; the
    record becomes a child of that top, or a root (parent = sentinel) when the
    stack is empty; its name, when it has one, is interned; the new event is
    appended and pushed. *)
Definition addEvent (st : ParserState) (r : TraceRecord) : ParserState :=
  let stack := pop_until (ps_events st) r (ps_stack st) in
  let p := hd (MkEventIndex (-1)) stack in
  let '(d, names) :=
    match rec_detail r with
    | Some s => intern s (ps_names st)
    | None => (DetailIndex_default, ps_names st)
    end in
  let h := MkEventIndex (next_position (ps_events st)) in
  let e := {| type := rec_type r; ts := rec_ts r; dur := rec_dur r;
              detailIndex := d; parent := p; children := [] |} in
  {| ps_events := fst (append (add_child p h (ps_events st)) e);
     ps_names := names;
     ps_stack := h :: stack |}.

Section TraceParser.
(** Reading the text of a document into its flat record list; [None] is a
    malformed or truncated document.  The JSON reader is a library outside
    this repository. *)
Variable decode : string -> option (list TraceRecord).

(** Modelled from the spec: [ParseBuildEvents] is declared in BuildEvents.h
    and defined in the missing BuildEvents.cpp.  A malformed document is a
    per-file skip; otherwise the records are added in order, starting from
    an empty stack, into the shared store and table. *)
Definition ParseBuildEvents (fileName jsonText : string)
    (outEvents : BuildEvents) (outNames : BuildNames) : BuildEvents * BuildNames :=
  match decode jsonText with
  | None => (outEvents, outNames)
  | Some records =>
      let st := foldl addEvent
                  {| ps_events := outEvents; ps_names := outNames; ps_stack := [] |}
                  records in
      (ps_events st, ps_names st)
  end.

(** Parsing a sequence of documents (file name, text) into a fresh store. *)
Definition parse_all (docs : list (string * string)) : BuildEvents * BuildNames :=
  foldl (fun acc doc => ParseBuildEvents (fst doc) (snd doc) (fst acc) (snd acc))
        ([], bimap_empty) docs.
End TraceParser.

(* ===================================================================== *)
(** * Aggregator (Analysis.cpp, not part of these sources) *)
(* ===================================================================== *)

(** The aggregated entry of one (kind, detail handle) pair: total duration
    and occurrence count. *)
Definition AggKey : Type := BuildEventType * Z.
Definition event_key (e : BuildEvent) : AggKey := (type e, detail_idx (detailIndex e)).

(** Modelled from the spec: the per-kind-and-name view of section 4.4, "a
    single pass over all events, accumulating into a handle-keyed
    running-total map"; the aggregator is the missing Analysis.cpp. *)
Definition accumulate (m : gmap (BuildEventType * Z) (Z * nat)) (e : BuildEvent)
  : gmap (BuildEventType * Z) (Z * nat) :=
  match m !! event_key e with
  | Some (total, count) => <[event_key e := ((total + dur e)%Z, S count)]> m
  | None => <[event_key e := (dur e, 1%nat)]> m
  end.

Definition aggregate (events : BuildEvents) : gmap (BuildEventType * Z) (Z * nat) :=
  foldl accumulate ∅ events.

(** What the specification asks of an entry: the events sharing the pair,
    their durations summed, and how many they are. *)
Definition events_with (k : AggKey) (events : BuildEvents) : list BuildEvent :=
  filter (fun e => event_key e = k) events.

Definition sum_durations (l : list BuildEvent) : Z :=
  foldr (fun e acc => (dur e + acc)%Z) 0%Z l.

(* ===================================================================== *)
(** * main.cpp *)
(* ===================================================================== *)

(** ** Characters and C strings *)

Definition CR : ascii := "013"%char.
Definition LF : ascii := "010"%char.
Definition NUL : ascii := "000"%char.
Definition backslash : ascii := "092"%char.
Definition slash : ascii := "/"%char.
Definition nl : string := String LF EmptyString.
Definition dq : string := String "034"%char EmptyString.
Definition quoted (s : string) : string := dq +:+ s +:+ dq.

(** [std::string::c_str()] read as a C string: the bytes before the first NUL. *)
Fixpoint c_str (s : string) : string :=
  match s with
  | EmptyString => EmptyString
  | String c rest => if Ascii.eqb c NUL then EmptyString else String c (c_str rest)
  end.

(** [strstr(haystack, needle) != NULL] *)
Fixpoint strstr (haystack needle : string) : bool :=
  String.prefix needle haystack ||
  match haystack with
  | EmptyString => false
  | String _ rest => strstr rest needle
  end.

(** ** [CompareIgnoreNewlines]

    A [std::string] is read through [size()] and [operator[]]; the loop only
    reads positions below the size. *)
Definition char_at (s : list ascii) (i : nat) : ascii := nth i s NUL.

(** The [for] loop together with the test after it.  Every iteration advances
    [ia], so [fuel] only bounds the recursion; [None] is fuel running out. *)
Fixpoint CompareLoop (fuel : nat) (a b : list ascii) (ia ib : nat) : option bool :=
  let alen := length a in
  let blen := length b in
  if Nat.ltb ia alen && Nat.ltb ib blen then
    match fuel with
    | O => None
    | S fuel' =>
        let ia1 := if Ascii.eqb (char_at a ia) CR then S ia else ia in
        let ib1 := if Ascii.eqb (char_at b ib) CR then S ib else ib in
        if Nat.ltb ia1 alen && Nat.ltb ib1 blen
           && negb (Ascii.eqb (char_at a ia1) (char_at b ib1))
        then Some false
        else CompareLoop fuel' a b (S ia1) (S ib1)
    end
  else
    if negb (Nat.eqb ia alen) || negb (Nat.eqb ib blen) then Some false else Some true.

Definition CompareIgnoreNewlines (a b : string) : option bool :=
  let la := list_ascii_of_string a in
  let lb := list_ascii_of_string b in
  CompareLoop (S (length la)) la lb 0 0.

(** A string with every carriage return deleted. *)
Definition strip_cr (s : string) : list ascii :=
  filter (fun c => c <> CR) (list_ascii_of_string s).

(** Every carriage return is directly followed by a character that is not a
    carriage return (as in text whose line ends are LF or CR LF). *)
Fixpoint cr_followed (l : list ascii) : bool :=
  match l with
  | [] => true
  | c :: rest =>
      (if Ascii.eqb c CR
       then match rest with
            | [] => false
            | x :: _ => negb (Ascii.eqb x CR)
            end
       else true) && cr_followed rest
  end.

(** ** [JsonFileFinder] *)

(** [std::set<std::string>]: the elements in ascending order of
    [std::string::operator<] (bytewise lexicographic), without repetition;
    iteration visits them in that order. *)
Definition string_set := list string.

Fixpoint set_insert (x : string) (s : string_set) : string_set :=
  match s with
  | [] => [x]
  | y :: rest =>
      match String.compare x y with
      | Lt => x :: s
      | Eq => s
      | Gt => y :: set_insert x rest
      end
  end.

(** [std::replace(path.begin(), path.end(), old, new)] *)
Fixpoint replace (old new : ascii) (s : string) : string :=
  match s with
  | EmptyString => EmptyString
  | String c rest => String (if Ascii.eqb c old then new else c) (replace old new rest)
  end.

(** The part of [cf_file_t] the program reads. *)
Record cf_file_t : Type := MkFile {
  path : string;
  name : string
}.

(** What the run observes of its surroundings: the helpers of cute_files.h,
    the C library calls on files and the clock. *)
Record World : Type := MkWorld {
  (** [cf_get_ext(f)]; [None] is NULL *)
  cf_get_ext : cf_file_t -> option string;
  (** [cf_get_file_time(path, &mtime)]; [None] is failure, otherwise
      [mtime.time] *)
  cf_get_file_time : string -> option Z;
  (** the files [cf_traverse(dir, ...)] hands to the callback, in its order *)
  cf_traverse : string -> list cf_file_t;
  (** the bytes of a file opened with [fopen(path, "rb")]; [None] when the
      file cannot be opened *)
  file_bytes : string -> option string;
  (** the number [fscanf] stores from the session file (0 when it reads
      none); [None] when the file cannot be opened *)
  session_number : string -> option Z;
  (** [time(NULL)] *)
  time_now : Z;
  (** the elapsed seconds as [printf("%.1f")] renders them *)
  elapsed_text : string
}.

Record JsonFileFinder : Type := MkFinder {
  startTime : Z;
  endTime : Z;
  files : string_set
}.

Definition OnFile (w : World) (self : JsonFileFinder) (f : cf_file_t) : JsonFileFinder :=
  match cf_get_ext w f with
  | None => self
  | Some ext =>
      if negb (String.eqb ext ".json") then self
      else
        match cf_get_file_time w (path f) with
        | None => self
        | Some fileModTime =>
            if (fileModTime <? startTime self)%Z || (fileModTime >? endTime self)%Z
            then self
            else
              let p := replace backslash slash (path f) in
              {| startTime := startTime self;
                 endTime := endTime self;
                 files := set_insert p (files self) |}
        end
  end.

(** ** [ReadFileToString], [ReadSessionFile] *)

Definition ReadFileToString (w : World) (p : string) : string :=
  match file_bytes w p with
  | None => EmptyString
  | Some bytes => bytes
  end.

Definition clangMarker : string :=
  "{" +:+ quoted "cat" +:+ ":" +:+ quoted "" +:+ "," +:+ quoted "pid" +:+ ":1,"
  +:+ quoted "tid" +:+ ":0," +:+ quoted "ts" +:+ ":0," +:+ quoted "ph" +:+ ":"
  +:+ quoted "M" +:+ "," +:+ quoted "name" +:+ ":" +:+ quoted "process_name"
  +:+ "," +:+ quoted "args" +:+ ":{" +:+ quoted "name" +:+ ":" +:+ quoted "clang"
  +:+ "}}".

Section Driver.
(** The escape sequences of Colors.h. *)
Variables kYellow kRed kReset : string.

(** [ParseBuildEvents] (BuildEvents.cpp) and [DoAnalysis] (Analysis.cpp)
    are called through their declarations; the text [DoAnalysis] writes to
    [out] is its result here. *)
Variable ParseBuildEvents_ :
  string -> string -> BuildEvents -> BuildNames -> BuildEvents * BuildNames.
Variable DoAnalysis : BuildEvents -> BuildNames -> string.

(** Each element of [printed] is the text of one [printf] of this file. *)
Record RunResult : Type := MkRunResult {
  retCode : Z;
  printed : list string;
  report : option string
}.

Definition msgSessionError (fname : string) : string :=
  kRed +:+ "ERROR: failed to open session file at '" +:+ fname +:+ "'." +:+ kReset +:+ nl.
Definition msgUsageError : string :=
  kRed +:+ "ERROR: --analyze requires <filename> to be passed." +:+ kReset +:+ nl.
Definition msgAnalyzing (inFile : string) : string :=
  kYellow +:+ "Analyzing build trace from '" +:+ inFile +:+ "'..." +:+ kReset +:+ nl.
Definition msgNoFiles (inFile : string) : string :=
  kRed +:+ "ERROR: no clang -ftime-trace .json files found under '" +:+ inFile
  +:+ "'." +:+ kReset +:+ nl.
Definition msgCouldNotRead (file : string) : string :=
  kYellow +:+ "  WARN: could not read file '" +:+ file +:+ "'." +:+ kReset +:+ nl.
Definition msgNoTraceEvents : string :=
  kYellow +:+ "  no trace events found." +:+ kReset +:+ nl.
Definition msgDone (w : World) : string :=
  kYellow +:+ "  done in " +:+ elapsed_text w +:+ "s." +:+ kReset +:+ nl.

(** [ReadSessionFile]: the start time, and what it printed. *)
Definition ReadSessionFile (w : World) (root : string) : option Z * list string :=
  let fname := root +:+ "/ClangBuildAnalyzerSession.txt" in
  match session_number w fname with
  | None => (None, [msgSessionError fname])
  | Some startTime => (Some startTime, [])
  end.

(** The state the [for] loop of [RunAnalyze] carries: the store, the name
    table and the lines printed so far. *)
Record LoopState : Type := MkLoop {
  events : BuildEvents;
  names : BuildNames;
  console : list string
}.

(** One iteration of the loop over [jsonFiles.files]. *)
Definition analyze_file (w : World) (st : LoopState) (file : string) : LoopState :=
  let str := ReadFileToString w file in
  if String.eqb str EmptyString then
    {| events := events st; names := names st;
       console := console st ++ [msgCouldNotRead file] |}
  else if negb (strstr (c_str str) clangMarker) then st
  else
    let '(ev, nm) := ParseBuildEvents_ file str (events st) (names st) in
    match ev with
    | [] => {| events := ev; names := nm; console := console st ++ [msgNoTraceEvents] |}
    | _ :: _ => {| events := ev; names := nm; console := console st |}
    end.

(** [cf_traverse(inFile, JsonFileFinder::Callback, &jsonFiles)] *)
Definition find_files (w : World) (inFile : string) (session : Z) : JsonFileFinder :=
  foldl (OnFile w)
        {| startTime := session; endTime := time_now w; files := [] |}
        (cf_traverse w inFile).

(** The state of that loop when it ends. *)
Definition loop_result (w : World) (inFile : string) (session : Z) : LoopState :=
  foldl (analyze_file w)
        {| events := []; names := bimap_empty; console := [msgAnalyzing inFile] |}
        (files (find_files w inFile session)).

(** [RunAnalyze(argc, argv, out)], with [argc] the length of [argv]. *)
Definition RunAnalyze (w : World) (argv : list string) : RunResult :=
  if Nat.ltb (length argv) 3 then
    {| retCode := 1; printed := [msgUsageError]; report := None |}
  else
    let inFile := nth 2 argv EmptyString in
    let log := [msgAnalyzing inFile] in
    match ReadSessionFile w inFile with
    | (None, err) => {| retCode := 1; printed := log ++ err; report := None |}
    | (Some session, _) =>
        let jsonFiles := find_files w inFile session in
        match files jsonFiles with
        | [] => {| retCode := 1; printed := log ++ [msgNoFiles inFile]; report := None |}
        | _ :: _ =>
            let st := loop_result w inFile session in
            {| retCode := 0;
               printed := console st ++ [msgDone w];
               report := Some (DoAnalysis (events st) (names st)) |}
        end
    end.
End Driver.

(* ===================================================================== *)
(** * Notions used to state the properties *)
(* ===================================================================== *)

(** A character list with every carriage return deleted. *)
Definition strip (l : list ascii) : list ascii := filter (fun c => c <> CR) l.

(** The loop seen on what is left of each string: [skip_cr] is the
    conditional [++ia] of one iteration, [compare_rest] the loop. *)
Definition skip_cr (l : list ascii) : list ascii :=
  match l with
  | c :: rest => if Ascii.eqb c CR then rest else l
  | [] => []
  end.

Fixpoint compare_rest (la lb : list ascii) : bool :=
  match la, lb with
  | [], [] => true
  | [], _ :: _ => false
  | _ :: _, [] => false
  | ca :: ta, cb :: tb =>
      if Ascii.eqb ca CR then
        match ta with
        | [] => false
        | x :: ra =>
            if Ascii.eqb cb CR then
              match tb with
              | [] => false
              | y :: rb => Ascii.eqb x y && compare_rest ra rb
              end
            else Ascii.eqb x cb && compare_rest ra tb
        end
      else
        if Ascii.eqb cb CR then
          match tb with
          | [] => false
          | y :: rb => Ascii.eqb ca y && compare_rest ta rb
          end
        else Ascii.eqb ca cb && compare_rest ta tb
  end.

(** The condition under which [OnFile] keeps a file. *)
Definition selected (w : World) (self : JsonFileFinder) (f : cf_file_t) : Prop :=
  cf_get_ext w f = Some ".json"%string /\
  exists t : Z, cf_get_file_time w (path f) = Some t /\
                (startTime self <= t <= endTime self)%Z.

(** What [OnFile] does with a file does not depend on the set. *)
Definition accepts (w : World) (lo hi : Z) (f : cf_file_t) : option string :=
  files (OnFile w {| startTime := lo; endTime := hi; files := [] |} f) !! 0%nat.

(** The two views list the same pairs, and the handles in use are the
    positions below the size. *)
Definition names_wf (names : BuildNames) : Prop :=
  (forall (s : string) (i : Z),
      left_view names !! s = Some (MkDetailIndex i) <-> right_view names !! i = Some s)
  /\ (forall (i : Z) (s : string),
        right_view names !! i = Some s -> (0 <= i < Z.of_nat (bimap_size names))%Z).

(** [child] lies within [p]. *)
Definition within (p child : BuildEvent) : Prop :=
  (ts p <= ts child)%Z /\ (ts child + dur child <= ts p + dur p)%Z.

(** Every event of the store is a root or lies within its parent. *)
Definition store_ok (ev : BuildEvents) : Prop :=
  forall (i : nat) (e : BuildEvent),
    ev !! i = Some e ->
    parent e = MkEventIndex (-1)
    \/ exists p : BuildEvent, defined_at ev (parent e) = Some p /\ within p e.

(** Two records that differ at most in their children. *)
Definition same_span (e e' : BuildEvent) : Prop :=
  ts e' = ts e /\ dur e' = dur e /\ parent e' = parent e.

(** An entry after the events [l] of its pair have been added to it. *)
Definition add_events (entry : option (Z * nat)) (l : list BuildEvent)
  : option (Z * nat) :=
  match l with
  | [] => entry
  | _ :: _ =>
      Some ((default 0%Z (fst <$> entry) + sum_durations l)%Z,
            (default 0%nat (snd <$> entry) + length l)%nat)
  end.

(* ===================================================================== *)
(** * Sample documents and surroundings used by the examples *)
(* ===================================================================== *)

(** A trace event line as clang writes it. *)
Definition event_json (kind detail : string) (start duration : string) : string :=
  "{" +:+ quoted "pid" +:+ ":1," +:+ quoted "tid" +:+ ":0," +:+ quoted "ph" +:+ ":"
  +:+ quoted "X" +:+ "," +:+ quoted "ts" +:+ ":" +:+ start +:+ "," +:+ quoted "dur"
  +:+ ":" +:+ duration +:+ "," +:+ quoted "name" +:+ ":" +:+ quoted kind +:+ ","
  +:+ quoted "args" +:+ ":{" +:+ quoted "detail" +:+ ":" +:+ quoted detail +:+ "}}".

Definition trace_json (lines : list string) : string :=
  "{" +:+ quoted "traceEvents" +:+ ":[" +:+ String.concat "," lines +:+ "]}".

(** Two translation units with one instantiation of [foo] each, a clang
    trace without events, and a JSON file that is not a clang trace. *)
Definition doc_foo_100 : string :=
  trace_json [event_json "InstantiateFunction" "foo" "10" "100"; clangMarker].
Definition doc_foo_250 : string :=
  trace_json [event_json "InstantiateFunction" "foo" "40" "250"; clangMarker].
Definition doc_no_events : string := trace_json [clangMarker].
Definition doc_not_clang : string := "{" +:+ quoted "version" +:+ ":3}".

(** A parent with a nested child and a later sibling of the parent. *)
Definition doc_nested : string :=
  trace_json [event_json "ParseFile" "a.h" "0" "1000";
              event_json "ParseTemplate" "T" "100" "300";
              event_json "ParseFile" "b.h" "1200" "50"; clangMarker].

(** The reading of the sample documents. *)
Definition sample_decode (text : string) : option (list TraceRecord) :=
  if String.eqb text doc_foo_100 then
    Some [ {| rec_type := kInstantiateFunction; rec_ts := 10; rec_dur := 100;
              rec_detail := Some "foo"%string |} ]
  else if String.eqb text doc_foo_250 then
    Some [ {| rec_type := kInstantiateFunction; rec_ts := 40; rec_dur := 250;
              rec_detail := Some "foo"%string |} ]
  else if String.eqb text doc_no_events then Some []
  else if String.eqb text doc_nested then
    Some [ {| rec_type := kParseFile; rec_ts := 0; rec_dur := 1000;
              rec_detail := Some "a.h"%string |};
           {| rec_type := kParseTemplate; rec_ts := 100; rec_dur := 300;
              rec_detail := Some "T"%string |};
           {| rec_type := kParseFile; rec_ts := 1200; rec_dur := 50;
              rec_detail := Some "b.h"%string |} ]
  else None.

(** A report writer for the examples: it only tells whether it was given
    events. *)
Definition sample_DoAnalysis (events : BuildEvents) (names : BuildNames) : string :=
  match events with
  | [] => "nothing to report"
  | _ :: _ => "report"
  end.

(** The extension as the text from the first period of the name on. *)
Definition sample_get_ext (f : cf_file_t) : option string :=
  match String.index 0 "." (name f) with
  | Some n => Some (String.substring n (String.length (name f) - n) (name f))
  | None => None
  end.

(** A build directory [out] whose session started at time 100, looked at at
    time 200, holding the given files (entry, modification time, bytes). *)
Fixpoint dir_lookup (key : cf_file_t -> string) (p : string)
    (dir : list (cf_file_t * Z * string)) : option (Z * string) :=
  match dir with
  | [] => None
  | (f, t, bytes) :: rest =>
      if String.eqb (key f) p then Some (t, bytes) else dir_lookup key p rest
  end.

Definition sample_world (dir : list (cf_file_t * Z * string)) : World :=
  {| cf_get_ext := sample_get_ext;
     cf_get_file_time := fun p => option_map fst (dir_lookup path p dir);
     cf_traverse := fun _ => map (fun e => fst (fst e)) dir;
     file_bytes := fun p =>
       option_map snd (dir_lookup (fun f => replace backslash slash (path f)) p dir);
     session_number := fun fname =>
       if String.eqb fname "out/ClangBuildAnalyzerSession.txt" then Some 100%Z else None;
     time_now := 200;
     elapsed_text := "0.1" |}.

Definition file_a : cf_file_t := {| path := "out/a.json"; name := "a.json" |}.
Definition file_b : cf_file_t := {| path := "out/b.json"; name := "b.json" |}.
Definition file_win : cf_file_t :=
  {| path := "out" +:+ String backslash "w.json"; name := "w.json" |}.
Definition file_txt : cf_file_t := {| path := "out/notes.txt"; name := "notes.txt" |}.

Definition world_not_clang : World := sample_world [(file_a, 150%Z, doc_not_clang)].
Definition world_two_units : World :=
  sample_world [(file_a, 150%Z, doc_foo_100); (file_b, 160%Z, doc_no_events)].
Definition world_mixed : World :=
  sample_world [(file_b, 160%Z, doc_foo_250); (file_txt, 150%Z, doc_not_clang);
                (file_win, 120%Z, doc_not_clang); (file_a, 150%Z, doc_foo_100)].

Definition sample_argv : list string := [""; "--analyze"; "out"]%string.

(** The same surroundings with another traversal order. *)
Definition with_traverse (w : World) (order : string -> list cf_file_t) : World :=
  {| cf_get_ext := cf_get_ext w;
     cf_get_file_time := cf_get_file_time w;
     cf_traverse := order;
     file_bytes := file_bytes w;
     session_number := session_number w;
     time_now := time_now w;
     elapsed_text := elapsed_text w |}.

(** Text with CR LF and with LF line ends. *)
Definition crlf (s t : string) : string := s +:+ String CR (String LF t).
Definition lf (s t : string) : string := s +:+ String LF t.

(** The driver on the sample surroundings, without colours. *)
Definition sample_run (w : World) : RunResult :=
  RunAnalyze "" "" "" (ParseBuildEvents sample_decode) sample_DoAnalysis w sample_argv.

Definition sample_step (w : World) : LoopState -> string -> LoopState :=
  analyze_file "" "" (ParseBuildEvents sample_decode) w.

Definition sample_start : LoopState :=
  {| events := []; names := bimap_empty; console := [] |}.

(** The store and table after the two translation units of the example. *)
Definition two_units : BuildEvents * BuildNames :=
  parse_all sample_decode
    [("out/a.json"%string, doc_foo_100); ("out/b.json"%string, doc_foo_250)].

(** The nested event of [doc_nested] as the parser stores it. *)
Definition nested_child : BuildEvent :=
  {| type := kParseTemplate; ts := 100; dur := 300;
     detailIndex := MkDetailIndex 1; parent := MkEventIndex 0; children := [] |}.
(* ===================================================================== *)
(** * Further notions: order of the candidate set, line ends *)
(* ===================================================================== *)

(** [std::string::operator<] as a relation. *)
Definition string_lt (x y : string) : Prop := String.compare x y = Lt.

(** A string without carriage return. *)
Definition no_cr (s : string) : Prop := ~ In CR (list_ascii_of_string s).

(** The text with every LF turned into CR LF. *)
Fixpoint to_crlf (s : string) : string :=
  match s with
  | EmptyString => EmptyString
  | String c rest =>
      if Ascii.eqb c LF then String CR (String LF (to_crlf rest))
      else String c (to_crlf rest)
  end.


(** A trace whose marker comes after a NUL byte. *)
Definition doc_marker_after_NUL : string :=
  "{" +:+ String NUL doc_foo_100.

(* ===================================================================== *)
(** * main.cpp: the other commands *)
(* ===================================================================== *)

(** ** [unsigned long] and [time_t] (64 bits both, as the [static_assert] of
    [RunStart] requires) *)

(** A [time_t] passed where an [unsigned long] is read, and back. *)
Definition as_unsigned_long (t : Z) : Z := t mod 2 ^ 64.
Definition as_time_t (u : Z) : Z := if (u <? 2 ^ 63)%Z then u else (u - 2 ^ 64)%Z.

(** ** [FiletimeToTime] (the [_MSC_VER] build)

    [FILETIME] holds two 32-bit halves; [ULARGE_INTEGER] joins them in
    [QuadPart].  The arithmetic is on [unsigned long long]; the result is
    converted to [time_t]. *)
Record FILETIME : Set := MkFILETIME {
  dwLowDateTime : Z;
  dwHighDateTime : Z
}.

Definition QuadPart (ft : FILETIME) : Z :=
  (dwHighDateTime ft mod 2 ^ 32) * 2 ^ 32 + dwLowDateTime ft mod 2 ^ 32.

Definition FiletimeToTime (ft : FILETIME) : Z :=
  as_time_t ((QuadPart ft / 10000000 - 11644473600) mod 2 ^ 64).

(** ** [printf("%lu")] and [fscanf("%lu")] *)

Definition digit_char (d : N) : ascii := ascii_of_N (48 + d).

(** The decimal digits of [n] put before [tail]; [fuel] bounds their number
    (20 digits hold every 64-bit value). *)
Fixpoint print_decimal (fuel : nat) (n : N) (tail : string) : string :=
  match fuel with
  | O => tail
  | S fuel' =>
      let tail' := String (digit_char (n mod 10)) tail in
      if (n <? 10)%N then tail' else print_decimal fuel' (n / 10) tail'
  end.

(** [printf("%lu", t)] for a [time_t] argument. *)
Definition print_lu (t : Z) : string :=
  print_decimal 20 (Z.to_N (as_unsigned_long t)) EmptyString.

Definition digit_value (c : ascii) : option N :=
  let n := N_of_ascii c in
  if (48 <=? n)%N && (n <=? 57)%N then Some (n - 48)%N else None.

(** The number made of [acc] and the digits [s] starts with. *)
Fixpoint scan_digits (s : string) (acc : N) : N :=
  match s with
  | EmptyString => acc
  | String c rest =>
      match digit_value c with
      | Some d => scan_digits rest (acc * 10 + d)
      | None => acc
      end
  end.

(** [isspace] in the C locale. *)
Definition isspace (c : ascii) : bool :=
  let n := N_of_ascii c in
  (n =? 32)%N || ((9 <=? n)%N && (n <=? 13)%N).

Fixpoint skip_spaces (s : string) : string :=
  match s with
  | EmptyString => EmptyString
  | String c rest => if isspace c then skip_spaces rest else s
  end.

(** [time_t t = 0; fscanf(f, "%lu", &t)] on the text of the file: white space
    is skipped, then an optionally signed decimal number is read as
    [strtoul] does (a minus sign negates in [unsigned long]; a number above
    [ULONG_MAX], which the C standard leaves open, gives [ULONG_MAX]); when
    no digit is found nothing is stored. *)
Definition scan_lu (text : string) : Z :=
  let s := skip_spaces text in
  let '(negative, digits) :=
    match s with
    | String "-"%char rest => (true, rest)
    | String "+"%char rest => (false, rest)
    | _ => (false, s)
    end in
  match digits with
  | EmptyString => 0
  | String c rest =>
      match digit_value c with
      | None => 0
      | Some d =>
          let v := Z.of_N (scan_digits rest d) in
          let u := if (v <=? 2 ^ 64 - 1)%Z
                   then (if negative then (2 ^ 64 - v) mod 2 ^ 64 else v)
                   else 2 ^ 64 - 1 in
          as_time_t u
      end
  end%Z.

(** The surroundings in which the session file [fname] holds [content]. *)
Definition with_session_file (w : World) (fname content : string) : World :=
  {| cf_get_ext := cf_get_ext w;
     cf_get_file_time := cf_get_file_time w;
     cf_traverse := cf_traverse w;
     file_bytes := file_bytes w;
     session_number := fun f =>
       if String.eqb f fname then Some (scan_lu content) else session_number w f;
     time_now := time_now w;
     elapsed_text := elapsed_text w |}.

(** An entry of a directory as [RunTests] reads it. *)
Record cf_dir_item : Type := MkItem {
  item_file : cf_file_t;
  is_dir : bool
}.

(** What the commands observe beyond [World]. *)
Record Host : Type := MkHost {
  host_world : World;
  (** [fopen(path, "wt")] and [fopen(path, "wb")] succeed *)
  can_create : string -> bool;
  (** the entries [cf_dir_open], [cf_read_file], [cf_dir_next] yield *)
  dir_items : string -> list cf_dir_item;
  (** what the test of a folder observes while it runs *)
  during_test : string -> World;
  (** the elapsed seconds of [RunTests] as [printf("%.1f")] renders them *)
  tests_elapsed_text : string
}.

Section Commands.
(** The escape sequences of Colors.h, as [col::Initialize()] sets them and as
    [col::Initialize(true)] sets them. *)
Variables kBold kYellow kRed kReset : string.
Variables offYellow offRed offReset : string.
Variable ParseBuildEvents_ :
  string -> string -> BuildEvents -> BuildNames -> BuildEvents * BuildNames.
Variable DoAnalysis : BuildEvents -> BuildNames -> string.

(** [PrintUsage] *)
Definition PrintUsage : list string :=
  [ kBold +:+ "USAGE" +:+ kReset +:+ ": one of" +:+ nl;
    "  ClangBuildAnalyzer " +:+ kBold +:+ "--start <artifactsdir>" +:+ kReset +:+ nl;
    "  ClangBuildAnalyzer " +:+ kBold +:+ "--analyze <dirname>" +:+ kReset +:+ nl ].

(** ** [RunStart] *)
Record StartResult : Type := MkStartResult {
  start_code : Z;
  start_printed : list string;
  (** the session file written: its name and its text *)
  start_written : option (string * string)
}.

Definition msgStartUsage : string :=
  kRed +:+ "ERROR: --start requires <artifactsdir> to be passed." +:+ kReset +:+ nl.
Definition msgStartCreate (fname : string) : string :=
  kRed +:+ "ERROR: failed to create session file at '" +:+ fname +:+ "'." +:+ kReset +:+ nl.
Definition msgStarted (artifactsDir : string) : string :=
  kYellow +:+ "Build tracing started. Do some Clang builds with '-ftime-trace', then run 'ClangBuildAnalyzer --stop "
  +:+ artifactsDir +:+ " <filename>' to stop tracing and save session to a file."
  +:+ kReset +:+ nl.

Definition RunStart (h : Host) (argv : list string) : StartResult :=
  if Nat.ltb (length argv) 3 then
    {| start_code := 1; start_printed := [msgStartUsage]; start_written := None |}
  else
    let artifactsDir := nth 2 argv EmptyString in
    let fname := artifactsDir +:+ "/ClangBuildAnalyzerSession.txt" in
    if negb (can_create h fname) then
      {| start_code := 1; start_printed := [msgStartCreate fname]; start_written := None |}
    else
      let now := time_now (host_world h) in
      {| start_code := 0;
         start_printed := [msgStarted artifactsDir];
         start_written := Some (fname, print_lu now +:+ nl) |}.

(** ** [RunOneTest] *)
Record TestResult : Type := MkTestResult {
  passed : bool;
  test_printed : list string;
  (** the analysis output file written: its name and its text *)
  test_written : option (string * string)
}.

(** [CompareIgnoreNewlines(a, b)] as the condition of an [if]. *)
Definition same_text (a b : string) : bool :=
  match CompareIgnoreNewlines a b with
  | Some true => true
  | _ => false
  end.

Definition msgRunningTest (folder : string) : string :=
  kYellow +:+ "Running test '" +:+ folder +:+ "'..." +:+ kReset +:+ nl.
Definition msgTraceMismatch (traceFile traceExpFile : string) : string :=
  kRed +:+ "Trace json file (" +:+ traceFile +:+ ") and expected json file ("
  +:+ traceExpFile +:+ ") do not match" +:+ kReset +:+ nl.
Definition msgCreateFailed (analyzeFile : string) : string :=
  kRed +:+ "Failed to create analysis output file '" +:+ analyzeFile +:+ "'" +:+ kReset +:+ nl.
Definition msgAnalysisMismatch (analyzeFile analyzeExpFile : string) : string :=
  kRed +:+ "Analysis output (" +:+ analyzeFile +:+ ") and expected output ("
  +:+ analyzeExpFile +:+ ") do not match" +:+ kReset +:+ nl.
Definition msgGot (text : string) : string := "--- Got:" +:+ nl +:+ c_str text +:+ nl.
Definition msgExpected (text : string) : string := "--- Expected:" +:+ nl +:+ c_str text +:+ nl.

(** [RunOneTest(folder)].  The analysis is run with the colours switched off
    and writes to the output file; what is read back from that file is what
    was written to it. *)
Definition RunOneTest (h : Host) (folder : string) : TestResult :=
  let w := during_test h folder in
  let start := [msgRunningTest folder] in
  let traceFile := folder +:+ "/_TraceOutput.json" in
  let traceExpFile := folder +:+ "/_TraceOutputExpected.json" in
  let gotTrace := ReadFileToString w traceFile in
  let expTrace := ReadFileToString w traceExpFile in
  if negb (same_text gotTrace expTrace) then
    {| passed := false;
       test_printed := start ++ [msgTraceMismatch traceFile traceExpFile];
       test_written := None |}
  else
    let analyzeFile := folder +:+ "/_AnalysisOutput.txt" in
    let analyzeExpFile := folder +:+ "/_AnalysisOutputExpected.txt" in
    if negb (can_create h analyzeFile) then
      {| passed := false;
         test_printed := start ++ [msgCreateFailed analyzeFile];
         test_written := None |}
    else
      let r := RunAnalyze offYellow offRed offReset ParseBuildEvents_ DoAnalysis w
                 [EmptyString; "--analyze"%string; traceFile] in
      let gotAnalysis := default EmptyString (report r) in
      if negb (retCode r =? 0)%Z then
        {| passed := false;
           test_printed := start ++ printed r;
           test_written := Some (analyzeFile, gotAnalysis) |}
      else
        let expAnalysis := ReadFileToString w analyzeExpFile in
        if negb (same_text gotAnalysis expAnalysis) then
          {| passed := false;
             test_printed := start ++ printed r
                             ++ [msgAnalysisMismatch analyzeFile analyzeExpFile;
                                 msgGot gotAnalysis; msgExpected expAnalysis];
             test_written := Some (analyzeFile, gotAnalysis) |}
        else
          {| passed := true;
             test_printed := start ++ printed r;
             test_written := Some (analyzeFile, gotAnalysis) |}.

(** ** [RunTests] *)
Record TestsResult : Type := MkTestsResult {
  tests_code : Z;
  tests_printed : list string;
  (** the final value of [failures] *)
  tests_failures : nat;
  tests_written : list (string * string)
}.

(** [entry.is_dir && entry.name[0] != '.'] *)
Definition runnable (it : cf_dir_item) : bool :=
  is_dir it
  && negb (Ascii.eqb (char_at (list_ascii_of_string (name (item_file it))) 0) "."%char).

(** An entry that is run and does not pass. *)
Definition fails_test (h : Host) (it : cf_dir_item) : bool :=
  runnable it && negb (passed (RunOneTest h (path (item_file it)))).

Record TestsState : Type := MkTestsState {
  failures : nat;
  tests_console : list string;
  tests_files : list (string * string)
}.

(** One iteration of the [while (dir.has_next)] loop. *)
Definition tests_step (h : Host) (st : TestsState) (it : cf_dir_item) : TestsState :=
  if runnable it then
    let r := RunOneTest h (path (item_file it)) in
    {| failures := if passed r then failures st else S (failures st);
       tests_console := tests_console st ++ test_printed r;
       tests_files := tests_files st ++ match test_written r with
                                        | Some f => [f]
                                        | None => []
                                        end |}
  else st.

Definition msgTestsUsage : string :=
  kRed +:+ "ERROR: --test requires <test_folder> to be passed." +:+ kReset +:+ nl.
Definition msgRunningTests (testsFolder : string) : string :=
  kYellow +:+ "Running tests under '" +:+ testsFolder +:+ "'..." +:+ kReset +:+ nl.
Definition msgTestsDone (h : Host) : string :=
  kYellow +:+ "  tests done in " +:+ tests_elapsed_text h +:+ "s." +:+ kReset +:+ nl.
(** [printf("%i", failures)], for a count within [int]. *)
Definition msgHadFailures (n : nat) : string :=
  kRed +:+ "  had " +:+ print_decimal 10 (N.of_nat n) EmptyString +:+ " failures."
  +:+ kReset +:+ nl.

Definition RunTests (h : Host) (argv : list string) : TestsResult :=
  if Nat.ltb (length argv) 3 then
    {| tests_code := 1; tests_printed := [msgTestsUsage];
       tests_failures := 0; tests_written := [] |}
  else
    let testsFolder := nth 2 argv EmptyString in
    let st := foldl (tests_step h)
                {| failures := 0; tests_console := [msgRunningTests testsFolder];
                   tests_files := [] |}
                (dir_items h testsFolder) in
    {| tests_code := if Nat.eqb (failures st) 0 then 0 else 1;
       tests_printed := tests_console st ++ [msgTestsDone h]
                        ++ (if Nat.eqb (failures st) 0 then []
                            else [msgHadFailures (failures st)]);
       tests_failures := failures st;
       tests_written := tests_files st |}.

(** ** [ProcessCommands], [main] *)
Inductive CommandResult : Type :=
  | Started (r : StartResult)
  | Analyzed (r : RunResult)
  | Tested (r : TestsResult)
  | Rejected (lines : list string).

Definition msgUnsupported : string :=
  kRed +:+ "Unsupported command line arguments" +:+ kReset +:+ nl.

Definition ProcessCommands (h : Host) (argv : list string) : CommandResult :=
  let command := nth 1 argv EmptyString in
  if String.eqb command "--start" then Started (RunStart h argv)
  else if String.eqb command "--analyze" then
    Analyzed (RunAnalyze kYellow kRed kReset ParseBuildEvents_ DoAnalysis (host_world h) argv)
  else if String.eqb command "--test" then Tested (RunTests h argv)
  else Rejected (msgUnsupported :: PrintUsage).

Definition main (h : Host) (argv : list string) : CommandResult :=
  if Nat.ltb (length argv) 2 then Rejected PrintUsage
  else ProcessCommands h argv.

(** The value [main] returns. *)
Definition exit_code (c : CommandResult) : Z :=
  match c with
  | Started r => start_code r
  | Analyzed r => retCode r
  | Tested r => tests_code r
  | Rejected _ => 1
  end.

(** The files a command writes. *)
Definition files_written (c : CommandResult) : list (string * string) :=
  match c with
  | Started r => match start_written r with Some f => [f] | None => [] end
  | Analyzed _ => []
  | Tested r => tests_written r
  | Rejected _ => []
  end.
End Commands.

(** ** Sample surroundings for the commands *)

(** A host whose tests folder [tests] holds the two dot entries, a test
    folder and a plain file; nothing of the test folder can be read. *)
Definition sample_host : Host :=
  {| host_world := world_two_units;
     can_create := fun _ => true;
     dir_items := fun _ =>
       [ {| item_file := {| path := "tests/."; name := "." |}; is_dir := true |};
         {| item_file := {| path := "tests/.."; name := ".." |}; is_dir := true |};
         {| item_file := {| path := "tests/t1"; name := "t1" |}; is_dir := true |};
         {| item_file := {| path := "tests/readme.txt"; name := "readme.txt" |};
            is_dir := false |} ];
     during_test := fun _ => world_two_units;
     tests_elapsed_text := "0.2" |}.

(** Surroundings in which the test folder [t] passes: every session file
    can be read, the traversal finds [out/a.json], and the expected analysis
    is the text [sample_DoAnalysis] writes. *)
Definition passing_world : World :=
  {| cf_get_ext := sample_get_ext;
     cf_get_file_time := fun _ => Some 150%Z;
     cf_traverse := fun _ => [file_a];
     file_bytes := fun p =>
       if String.eqb p "out/a.json" then Some doc_foo_100
       else if String.eqb p "t/_AnalysisOutputExpected.txt" then Some "report"%string
       else None;
     session_number := fun _ => Some 100%Z;
     time_now := 200;
     elapsed_text := "0.1" |}.

Definition passing_host : Host :=
  {| host_world := passing_world;
     can_create := fun _ => true;
     dir_items := fun _ => [];
     during_test := fun _ => passing_world;
     tests_elapsed_text := "0.2" |}.

(** A build directory whose only candidate is an empty file. *)
Definition world_empty_file : World := sample_world [(file_a, 150%Z, EmptyString)].

(** A host whose clock shows 120 when [RunStart] runs. *)
Definition early_host : Host :=
  {| host_world :=
       {| cf_get_ext := sample_get_ext;
          cf_get_file_time := fun _ => None;
          cf_traverse := fun _ => [];
          file_bytes := fun _ => None;
          session_number := fun _ => None;
          time_now := 120;
          elapsed_text := "0.1" |};
     can_create := fun _ => true;
     dir_items := fun _ => [];
     during_test := fun _ => passing_world;
     tests_elapsed_text := "0.2" |}.

Definition sample_main (h : Host) (argv : list string) : CommandResult :=
  main "" "" "" "" "" "" "" (ParseBuildEvents sample_decode) sample_DoAnalysis h argv.


(* ===================================================================== *)
(** * CompareIgnoreNewlines *)
(* ===================================================================== *)

Section CompareIgnoreNewlinesFacts.

Lemma compare_rest_unfold (la lb : list ascii) :
  la <> [] -> lb <> [] ->
  compare_rest la lb =
    match skip_cr la, skip_cr lb with
    | x :: ra, y :: rb => Ascii.eqb x y && compare_rest ra rb
    | _, _ => false
    end.
Proof.
  destruct la as [|ca ta], lb as [|cb tb]; try congruence; intros _ _.
  simpl. destruct (Ascii.eqb ca CR), (Ascii.eqb cb CR);
    destruct ta, tb; reflexivity.
Qed.

Lemma char_at_drop (l : list ascii) (i : nat) :
  (i < length l)%nat -> drop i l = char_at l i :: drop (S i) l.
Proof.
  intros Hi. destruct (lookup_lt_is_Some_2 l i Hi) as [x Hx].
  unfold char_at. rewrite (nth_lookup_Some _ _ _ _ Hx).
  by apply drop_S.
Qed.

Lemma drop_nil_iff (l : list ascii) (i : nat) :
  (i <= length l)%nat -> (drop i l = [] <-> i = length l).
Proof.
  intros Hi. split.
  - intros Hd. apply (f_equal length) in Hd. rewrite length_drop in Hd.
    simpl in Hd. lia.
  - intros ->. apply drop_all.
Qed.

Lemma skip_cr_drop (l : list ascii) (i : nat) :
  (i < length l)%nat ->
  skip_cr (drop i l) = drop (if Ascii.eqb (char_at l i) CR then S i else i) l.
Proof.
  intros Hi. rewrite (char_at_drop l i Hi). simpl.
  destruct (Ascii.eqb (char_at l i) CR); [reflexivity|].
  by rewrite <- char_at_drop.
Qed.

(** Past the end of either string the loop is over and the final test fails. *)
Lemma CompareLoop_overrun (fuel : nat) (a b : list ascii) (ia ib : nat) :
  (length a < ia)%nat \/ (length b < ib)%nat ->
  CompareLoop fuel a b ia ib = Some false.
Proof.
  intros Hover. destruct fuel; simpl.
  all: destruct (Nat.ltb_spec ia (length a)), (Nat.ltb_spec ib (length b));
    simpl; try lia.
  all: destruct (Nat.eqb_spec ia (length a)), (Nat.eqb_spec ib (length b));
    simpl; try reflexivity; lia.
Qed.

(** The indexed loop computes [compare_rest] on the two suffixes. *)
Lemma CompareLoop_rest (fuel : nat) (a b : list ascii) :
  forall ia ib : nat,
    (ia <= length a)%nat -> (ib <= length b)%nat ->
    (length a - ia < fuel)%nat ->
    CompareLoop fuel a b ia ib = Some (compare_rest (drop ia a) (drop ib b)).
Proof.
  induction fuel as [|fuel IH]; intros ia ib Ha Hb Hfuel; [lia|].
  cbn [CompareLoop].
  destruct (Nat.ltb_spec ia (length a)) as [Hia|Hia];
    [destruct (Nat.ltb_spec ib (length b)) as [Hib|Hib]|]; cbn [andb].
  - rewrite compare_rest_unfold.
    2:{ rewrite drop_nil_iff by lia. lia. }
    2:{ rewrite drop_nil_iff by lia. lia. }
    rewrite !skip_cr_drop by assumption.
    set (ia1 := if Ascii.eqb (char_at a ia) CR then S ia else ia).
    set (ib1 := if Ascii.eqb (char_at b ib) CR then S ib else ib).
    assert (Hia1 : (ia <= ia1 <= S ia)%nat)
      by (subst ia1; case_match; lia).
    assert (Hib1 : (ib <= ib1 <= S ib)%nat)
      by (subst ib1; case_match; lia).
    destruct (Nat.ltb_spec ia1 (length a)) as [Ha1|Ha1];
      [destruct (Nat.ltb_spec ib1 (length b)) as [Hb1|Hb1]|]; cbn [andb].
    + rewrite (char_at_drop a ia1 Ha1), (char_at_drop b ib1 Hb1).
      destruct (Ascii.eqb (char_at a ia1) (char_at b ib1)); cbn [negb andb].
      * apply IH; lia.
      * reflexivity.
    + rewrite CompareLoop_overrun by lia.
      rewrite (char_at_drop a ia1 Ha1).
      replace (drop ib1 b) with (@nil ascii); [reflexivity|].
      symmetry. apply drop_ge. lia.
    + rewrite CompareLoop_overrun by lia.
      replace (drop ia1 a) with (@nil ascii); [reflexivity|].
      symmetry. apply drop_ge. lia.
  - assert (ib = length b) as -> by lia.
    rewrite Nat.eqb_refl, drop_all.
    destruct (Nat.eqb_spec ia (length a)); [lia|]. cbn.
    rewrite (char_at_drop a ia Hia). reflexivity.
  - assert (ia = length a) as -> by lia.
    rewrite Nat.eqb_refl, drop_all. cbn [negb orb].
    destruct (Nat.eqb_spec ib (length b)) as [->|Hne]; cbn [negb].
    + by rewrite drop_all.
    + rewrite (char_at_drop b ib) by lia. reflexivity.
Qed.

(** The function always returns: the fuel it is given is enough. *)
Lemma CompareIgnoreNewlines_rest (a b : string) :
  CompareIgnoreNewlines a b =
    Some (compare_rest (list_ascii_of_string a) (list_ascii_of_string b)).
Proof.
  unfold CompareIgnoreNewlines. rewrite CompareLoop_rest by lia.
  reflexivity.
Qed.

Lemma strip_skip_cr (l : list ascii) : strip (skip_cr l) = strip l.
Proof.
  destruct l as [|c rest]; [reflexivity|]. simpl.
  destruct (Ascii.eqb_spec c CR) as [->|Hc]; [|reflexivity].
  unfold strip. rewrite filter_cons_False; [reflexivity|]. intros Hn; by apply Hn.
Qed.

Lemma skip_cr_length (l : list ascii) : (length (skip_cr l) <= length l)%nat.
Proof. destruct l as [|c rest]; simpl; [lia|]. destruct (Ascii.eqb c CR); simpl; lia. Qed.

(** Whenever the loop accepts, the strings agree once carriage returns are
    deleted. *)
Lemma compare_rest_sound (n : nat) :
  forall la lb : list ascii,
    (length la <= n)%nat -> compare_rest la lb = true -> strip la = strip lb.
Proof.
  induction n as [|n IH]; intros la lb Hlen Hcmp.
  - destruct la; [|simpl in Hlen; lia]. destruct lb; [reflexivity|discriminate].
  - destruct la as [|ca ta] eqn:Ela; [destruct lb; [reflexivity|discriminate]|].
    destruct lb as [|cb tb] eqn:Elb; [discriminate|].
    rewrite <- Ela, <- Elb in *.
    rewrite compare_rest_unfold in Hcmp by (subst; congruence).
    rewrite <- (strip_skip_cr la), <- (strip_skip_cr lb).
    pose proof (skip_cr_length la) as Hsk.
    destruct (skip_cr la) as [|x ra]; [discriminate|].
    destruct (skip_cr lb) as [|y rb]; [discriminate|].
    apply andb_prop in Hcmp as [Hxy Hrest].
    apply Ascii.eqb_eq in Hxy. subst y.
    assert (Hra : strip ra = strip rb).
    { apply IH; [|assumption]. subst la. simpl in *. lia. }
    unfold strip in *. rewrite !filter_cons. rewrite Hra. reflexivity.
Qed.

Lemma cr_followed_skip (l : list ascii) :
  cr_followed l = true -> l <> [] ->
  exists x r, skip_cr l = x :: r /\ x <> CR /\ strip l = x :: strip r
              /\ cr_followed r = true /\ (length r < length l)%nat.
Proof.
  destruct l as [|c rest]; [congruence|]. intros Hok _. simpl in Hok.
  apply andb_prop in Hok as [Hhead Hrest]. simpl.
  destruct (Ascii.eqb_spec c CR) as [->|Hc].
  - destruct rest as [|x r]; [discriminate|].
    apply negb_true_iff, Ascii.eqb_neq in Hhead.
    exists x, r. simpl in Hrest. apply andb_prop in Hrest as [_ Hr].
    repeat split; try assumption; [|simpl; lia].
    unfold strip. rewrite filter_cons_False by (intros Hn; by apply Hn).
    by rewrite filter_cons_True.
  - exists c, rest. repeat split; try assumption; [|simpl; lia].
    unfold strip. by rewrite filter_cons_True.
Qed.

(** On text where no carriage return is doubled or last, equality after
    deleting carriage returns makes the loop accept. *)
Lemma compare_rest_complete (n : nat) :
  forall la lb : list ascii,
    (length la <= n)%nat ->
    cr_followed la = true -> cr_followed lb = true ->
    strip la = strip lb -> compare_rest la lb = true.
Proof.
  induction n as [|n IH]; intros la lb Hlen Hoka Hokb Heq.
  - destruct la; [|simpl in Hlen; lia].
    destruct lb as [|cb tb]; [reflexivity|].
    destruct (cr_followed_skip (cb :: tb) Hokb) as (y & rb & _ & _ & Hs & _);
      [congruence|].
    rewrite Hs in Heq. discriminate.
  - destruct (decide (la = [])) as [->|Hna].
    { destruct lb as [|cb tb]; [reflexivity|].
      destruct (cr_followed_skip (cb :: tb) Hokb) as (y & rb & _ & _ & Hs & _);
        [congruence|].
      rewrite Hs in Heq. discriminate. }
    destruct (cr_followed_skip la Hoka Hna) as (x & ra & Hska & Hx & Hsa & Hra & Hla).
    destruct (decide (lb = [])) as [->|Hnb].
    { rewrite Hsa in Heq. discriminate. }
    destruct (cr_followed_skip lb Hokb Hnb) as (y & rb & Hskb & Hy & Hsb & Hrb & Hlb).
    rewrite compare_rest_unfold by assumption.
    rewrite Hska, Hskb. rewrite Hsa, Hsb in Heq.
    injection Heq as -> Heq.
    rewrite Ascii.eqb_refl. cbn [andb].
    apply IH; try assumption. lia.
Qed.

End CompareIgnoreNewlinesFacts.

(* ===================================================================== *)
(** * The ordered set of candidate paths *)
(* ===================================================================== *)

Section StringOrder.

Lemma compare_refl (x : string) : String.compare x x = Eq.
Proof. by apply String_as_OT.cmp_eq. Qed.

Lemma compare_Eq (x y : string) : String.compare x y = Eq -> x = y.
Proof. apply String_as_OT.cmp_eq. Qed.

Lemma compare_Gt_Lt (x y : string) : String.compare x y = Gt <-> String.compare y x = Lt.
Proof.
  rewrite (String.compare_antisym y x).
  destruct (String.compare x y); simpl; split; congruence.
Qed.

Lemma compare_Lt_trans (x y z : string) :
  String.compare x y = Lt -> String.compare y z = Lt -> String.compare x z = Lt.
Proof.
  intros Hxy Hyz. apply String_as_OT.cmp_lt.
  apply String_as_OT.lt_trans with y; by apply String_as_OT.cmp_lt.
Qed.

Lemma compare_Lt_irrefl (x : string) : String.compare x x <> Lt.
Proof. rewrite compare_refl. discriminate. Qed.

End StringOrder.

(** Settles a goal from facts [String.compare _ _ = _] in the context. *)
Ltac string_order :=
  repeat match goal with
  | H : String.compare _ _ = Eq |- _ => apply compare_Eq in H; subst
  | H : String.compare _ _ = Gt |- _ => apply compare_Gt_Lt in H
  end;
  rewrite ?compare_refl in *;
  try congruence;
  try solve [ exfalso;
    match goal with
    | H1 : String.compare ?a ?b = Lt, H2 : String.compare ?b ?a = Lt |- _ =>
        exact (compare_Lt_irrefl a (compare_Lt_trans a b a H1 H2))
    | H1 : String.compare ?a ?b = Lt, H2 : String.compare ?b ?c = Lt,
      H3 : String.compare ?c ?a = Lt |- _ =>
        exact (compare_Lt_irrefl a
                 (compare_Lt_trans a c a (compare_Lt_trans a b c H1 H2) H3))
    | H : String.compare ?a ?a = Lt |- _ => exact (compare_Lt_irrefl a H)
    end ].

Section StringSet.

Lemma set_insert_In (x : string) (s : string_set) :
  forall y : string, In y (set_insert x s) <-> y = x \/ In y s.
Proof.
  induction s as [|z rest IH]; intros y; simpl.
  - intuition.
  - destruct (String.compare x z) eqn:Hc; simpl.
    + apply compare_Eq in Hc. subst z. intuition.
    + intuition.
    + rewrite IH. intuition.
Qed.

(** The set does not depend on the order of two insertions. *)
Lemma set_insert_comm (x y : string) (s : string_set) :
  set_insert x (set_insert y s) = set_insert y (set_insert x s).
Proof.
  induction s as [|z rest IH]; simpl.
  - destruct (String.compare x y) eqn:Hxy, (String.compare y x) eqn:Hyx;
      string_order.
  - destruct (String.compare y z) eqn:Hyz, (String.compare x z) eqn:Hxz; simpl;
      rewrite ?Hyz, ?Hxz; try reflexivity.
    all: try (destruct (String.compare x y) eqn:Hxy);
         try (destruct (String.compare y x) eqn:Hyx);
         simpl; rewrite ?Hyz, ?Hxz; try reflexivity; string_order.
Qed.

Lemma replace_get (old new : ascii) (s : string) (i : nat) :
  String.get i (replace old new s)
  = (fun c => if Ascii.eqb c old then new else c) <$> String.get i s.
Proof.
  revert i. induction s as [|c rest IH]; intros i; simpl; [reflexivity|].
  destruct i; simpl; [reflexivity|apply IH].
Qed.

Lemma replace_length (old new : ascii) (s : string) :
  String.length (replace old new s) = String.length s.
Proof. induction s; simpl; congruence. Qed.

End StringSet.

Section FinderFacts.
Variable w : World.

Lemma OnFile_selected (self : JsonFileFinder) (f : cf_file_t) :
  selected w self f ->
  OnFile w self f =
    {| startTime := startTime self; endTime := endTime self;
       files := set_insert (replace backslash slash (path f)) (files self) |}.
Proof.
  intros [Hext (t & Ht & Hlo & Hhi)]. unfold OnFile. rewrite Hext, Ht.
  simpl. destruct (Z.ltb_spec t (startTime self)); [lia|].
  rewrite Z.gtb_ltb. destruct (Z.ltb_spec (endTime self) t); [lia|].
  reflexivity.
Qed.

Lemma OnFile_not_selected (self : JsonFileFinder) (f : cf_file_t) :
  ~ selected w self f -> OnFile w self f = self.
Proof.
  intros Hn. unfold OnFile.
  destruct (cf_get_ext w f) as [ext|] eqn:Hext; [|reflexivity].
  destruct (String.eqb_spec ext ".json") as [->|Hne]; simpl; [|reflexivity].
  destruct (cf_get_file_time w (path f)) as [t|] eqn:Ht; [|reflexivity].
  destruct (Z.ltb_spec t (startTime self)); [reflexivity|].
  rewrite Z.gtb_ltb. destruct (Z.ltb_spec (endTime self) t); [reflexivity|].
  exfalso. apply Hn. split; [assumption|]. exists t. split; [assumption|lia].
Qed.

Lemma OnFile_times (self : JsonFileFinder) (f : cf_file_t) :
  startTime (OnFile w self f) = startTime self /\
  endTime (OnFile w self f) = endTime self.
Proof.
  unfold OnFile. repeat case_match; simpl; split; reflexivity.
Qed.

Lemma OnFile_accepts (self : JsonFileFinder) (f : cf_file_t) :
  OnFile w self f =
    match accepts w (startTime self) (endTime self) f with
    | Some p => {| startTime := startTime self; endTime := endTime self;
                   files := set_insert p (files self) |}
    | None => self
    end.
Proof.
  unfold accepts, OnFile. destruct self as [lo hi s]. simpl.
  repeat case_match; simpl in *; try reflexivity; congruence.
Qed.

Lemma OnFile_comm (self : JsonFileFinder) (f g : cf_file_t) :
  OnFile w (OnFile w self f) g = OnFile w (OnFile w self g) f.
Proof.
  rewrite (OnFile_accepts self f), (OnFile_accepts self g).
  destruct (accepts w _ _ f) as [p|] eqn:Hf, (accepts w _ _ g) as [q|] eqn:Hg;
    rewrite !OnFile_accepts; simpl; rewrite ?Hf, ?Hg; try reflexivity.
  by rewrite set_insert_comm.
Qed.

Lemma foldl_OnFile_Permutation (order1 order2 : list cf_file_t) :
  Permutation order1 order2 ->
  forall self : JsonFileFinder,
    foldl (OnFile w) self order1 = foldl (OnFile w) self order2.
Proof.
  induction 1 as [|f l1 l2 _ IH|f g l|l1 l2 l3 _ IH1 _ IH2]; intros self; simpl.
  - reflexivity.
  - apply IH.
  - by rewrite OnFile_comm.
  - by rewrite IH1.
Qed.

End FinderFacts.

(* ===================================================================== *)
(** * main.cpp: the claims about the driver *)
(* ===================================================================== *)

(** C9, as stated, fails: ["x\r"] and ["x"] are equal once carriage returns
    are deleted, and [CompareIgnoreNewlines] returns false on them; it also
    returns false on ["\r"] against itself. *)
Lemma CompareIgnoreNewlines_trailing_cr :
  strip_cr (String "x" (String CR "")) = strip_cr "x"
  /\ CompareIgnoreNewlines (String "x" (String CR "")) "x" = Some false
  /\ CompareIgnoreNewlines (String CR "") (String CR "") = Some false.
Proof. repeat split; vm_compute; reflexivity. Qed.

(** C9 (amended): [CompareIgnoreNewlines a b] always returns; when it returns
    true, [a] and [b] are equal after deleting every carriage return; and when
    in both strings every carriage return is directly followed by a character
    that is not a carriage return, it returns true exactly when they are equal
    after deleting every carriage return. *)
Theorem CompareIgnoreNewlines_spec (a b : string) :
  exists r : bool,
    CompareIgnoreNewlines a b = Some r
    /\ (r = true -> strip_cr a = strip_cr b)
    /\ (cr_followed (list_ascii_of_string a) = true ->
        cr_followed (list_ascii_of_string b) = true ->
        (r = true <-> strip_cr a = strip_cr b)).
Proof.
  exists (compare_rest (list_ascii_of_string a) (list_ascii_of_string b)).
  split; [apply CompareIgnoreNewlines_rest|].
  assert (Hsound : compare_rest (list_ascii_of_string a) (list_ascii_of_string b) = true
                   -> strip_cr a = strip_cr b).
  { intros Hr. by apply (compare_rest_sound (length (list_ascii_of_string a))). }
  split; [exact Hsound|].
  intros Ha Hb. split; [exact Hsound|].
  intros Heq. by apply (compare_rest_complete (length (list_ascii_of_string a))).
Qed.

Lemma CompareIgnoreNewlines_spec_witness :
  CompareIgnoreNewlines (crlf "a" "b") (lf "a" "b") = Some true.
Proof.
  destruct (CompareIgnoreNewlines_spec (crlf "a" "b") (lf "a" "b"))
    as (r & Hr & _ & Hiff).
  rewrite Hr. f_equal.
  apply Hiff; vm_compute; reflexivity.
Defined.

(** C10: [OnFile] adds the path of [f] to the set exactly when the extension
    is [".json"], the modification time can be read and it lies in
    [[startTime, endTime]]; the path added has every backslash replaced by a
    slash; otherwise the finder is unchanged.  The two times never change. *)
Theorem OnFile_spec (w : World) (self : JsonFileFinder) (f : cf_file_t) :
  let p := replace backslash slash (path f) in
  (selected w self f ->
     forall x : string, In x (files (OnFile w self f)) <-> x = p \/ In x (files self))
  /\ (~ selected w self f -> OnFile w self f = self)
  /\ startTime (OnFile w self f) = startTime self
  /\ endTime (OnFile w self f) = endTime self
  /\ String.length p = String.length (path f)
  /\ (forall i : nat,
        String.get i p
        = (fun c => if Ascii.eqb c backslash then slash else c) <$> String.get i (path f)).
Proof.
  intros p. split; [|split; [|split; [|split; [|split]]]].
  - intros Hsel x. rewrite (OnFile_selected w self f Hsel). simpl.
    apply set_insert_In.
  - apply OnFile_not_selected.
  - apply OnFile_times.
  - apply OnFile_times.
  - apply replace_length.
  - intros i. apply replace_get.
Qed.

Lemma OnFile_spec_witness :
  files (OnFile world_mixed {| startTime := 100; endTime := 200; files := [] |} file_win)
    = ["out/w.json"%string]
  /\ OnFile world_mixed {| startTime := 100; endTime := 200; files := [] |} file_txt
     = {| startTime := 100; endTime := 200; files := [] |}.
Proof.
  pose proof (OnFile_spec world_mixed
                {| startTime := 100; endTime := 200; files := [] |} file_txt)
    as (_ & Hskip & _).
  split; [vm_compute; reflexivity|].
  apply Hskip. intros [Hext _]. vm_compute in Hext. discriminate.
Defined.

Section DriverFacts.
Variables kYellow kRed kReset : string.
Variable Parse : string -> string -> BuildEvents -> BuildNames -> BuildEvents * BuildNames.
Variable Analysis : BuildEvents -> BuildNames -> string.

#[local] Abbreviation run := (RunAnalyze kYellow kRed kReset Parse Analysis).
#[local] Abbreviation step := (analyze_file kYellow kReset Parse).

Lemma find_files_Permutation (w : World) (order1 order2 : string -> list cf_file_t)
    (inFile : string) (session : Z) :
  Permutation (order1 inFile) (order2 inFile) ->
  find_files (with_traverse w order1) inFile session
  = find_files (with_traverse w order2) inFile session.
Proof.
  intros Hperm. unfold find_files. simpl.
  transitivity (foldl (OnFile w)
                  {| startTime := session; endTime := time_now w; files := [] |}
                  (order1 inFile)); [reflexivity|].
  rewrite (foldl_OnFile_Permutation w _ _ Hperm). reflexivity.
Qed.

Lemma analyze_file_traverse (w : World) (order : string -> list cf_file_t) :
  step (with_traverse w order) = step w.
Proof. reflexivity. Qed.

(** C5: the files [cf_traverse] reports are collected in a set ordered by
    path and processed in that order, so the order in which the file system
    reports them does not change anything the run produces: result code,
    printed lines and the analysis written to [out]. *)
Theorem RunAnalyze_traversal_order (w : World)
    (order1 order2 : string -> list cf_file_t) (argv : list string) :
  (forall dir : string, Permutation (order1 dir) (order2 dir)) ->
  run (with_traverse w order1) argv = run (with_traverse w order2) argv.
Proof.
  intros Hperm. unfold RunAnalyze, loop_result.
  destruct (Nat.ltb (length argv) 3); [reflexivity|].
  unfold ReadSessionFile. cbn [session_number with_traverse].
  destruct (session_number w _) as [session|]; [|reflexivity].
  rewrite (find_files_Permutation w order1 order2 _ session (Hperm _)).
  reflexivity.
Qed.

(** C3 (amended): [RunAnalyze] fails, with code 1 and without calling
    [DoAnalysis], exactly when the argument is missing, the session file
    cannot be opened or no candidate file is found.  As soon as one
    candidate file is found it calls [DoAnalysis] on the store the loop
    built and returns 0, whatever that store holds. *)
Theorem RunAnalyze_retCode (w : World) (argv : list string) :
  let r := run w argv in
  let inFile := nth 2 argv EmptyString in
  let start := session_number w (inFile +:+ "/ClangBuildAnalyzerSession.txt") in
  let fails :=
    (length argv < 3)%nat \/ start = None
    \/ exists session : Z, start = Some session
                          /\ files (find_files w inFile session) = [] in
  (fails -> retCode r = 1%Z /\ report r = None)
  /\ (~ fails ->
      exists session : Z,
        start = Some session
        /\ retCode r = 0%Z
        /\ report r = Some (Analysis (events (loop_result kYellow kReset Parse w inFile session))
                                     (names (loop_result kYellow kReset Parse w inFile session)))).
Proof.
  intros r inFile start fails. subst r fails. unfold RunAnalyze.
  destruct (Nat.ltb_spec (length argv) 3) as [Hargc|Hargc].
  { split; [intros _; split; reflexivity|]. intros Hn. exfalso. apply Hn. by left. }
  unfold ReadSessionFile. fold inFile. fold start.
  destruct start as [session|] eqn:Hstart.
  2:{ split; [intros _; split; reflexivity|].
      intros Hn. exfalso. apply Hn. right. by left. }
  destruct (files (find_files w inFile session)) as [|file rest] eqn:Hfiles.
  { split; [intros _; split; reflexivity|].
    intros Hn. exfalso. apply Hn. right. right. by exists session. }
  split.
  - intros [Hlt|[Hnone|(s & Hs & Hnil)]]; [lia|discriminate|].
    injection Hs as <-. rewrite Hfiles in Hnil. discriminate.
  - intros _. exists session. repeat split; reflexivity.
Qed.

(** C4 (amended): a readable document without the producer marker is
    skipped without any message: store, name table and printed lines are
    left as they were, and the loop goes on with the remaining files. *)
Theorem analyze_file_unmarked (w : World) (st : LoopState)
    (file : string) (rest : list string) :
  ReadFileToString w file <> EmptyString ->
  strstr (c_str (ReadFileToString w file)) clangMarker = false ->
  step w st file = st
  /\ foldl (step w) st (file :: rest) = foldl (step w) st rest.
Proof.
  intros Hread Hmarker.
  assert (Hstep : step w st file = st).
  { unfold analyze_file.
    destruct (String.eqb_spec (ReadFileToString w file) EmptyString); [done|].
    by rewrite Hmarker. }
  split; [exact Hstep|]. simpl. by rewrite Hstep.
Qed.

(** The line "no trace events found" is printed for a clang trace exactly
    when the shared store is empty after parsing it. *)
Lemma analyze_file_marked (w : World) (st : LoopState) (file : string) :
  ReadFileToString w file <> EmptyString ->
  strstr (c_str (ReadFileToString w file)) clangMarker = true ->
  let parsed := Parse file (ReadFileToString w file) (events st) (names st) in
  step w st file =
    {| events := fst parsed; names := snd parsed;
       console := console st ++ match fst parsed with
                        | [] => [msgNoTraceEvents kYellow kReset]
                        | _ :: _ => []
                        end |}.
Proof.
  intros Hread Hmarker parsed. unfold analyze_file.
  destruct (String.eqb_spec (ReadFileToString w file) EmptyString); [done|].
  rewrite Hmarker. simpl. fold parsed.
  destruct parsed as [[|e ev] nm]; simpl; [reflexivity|].
  by rewrite app_nil_r.
Qed.

End DriverFacts.

Lemma RunAnalyze_traversal_order_witness :
  sample_run (with_traverse world_mixed (fun _ => [file_a; file_win; file_b; file_txt]))
  = sample_run (with_traverse world_mixed (fun _ => [file_txt; file_b; file_a; file_win])).
Proof.
  apply RunAnalyze_traversal_order. intros _.
  apply perm_trans with [file_txt; file_a; file_win; file_b].
  - change [file_a; file_win; file_b; file_txt]
      with ([file_a; file_win; file_b] ++ [file_txt]).
    symmetry. apply Permutation_cons_append.
  - apply perm_skip.
    change [file_a; file_win; file_b] with ([file_a; file_win] ++ [file_b]).
    symmetry. apply Permutation_cons_append.
Defined.

(** C3, as stated, fails: the only candidate file lacks the producer marker,
    no event is parsed, and the run calls [DoAnalysis] on the empty store and
    returns 0. *)
Lemma RunAnalyze_no_events_succeeds :
  strstr (c_str doc_not_clang) clangMarker = false
  /\ events (loop_result "" "" (ParseBuildEvents sample_decode) world_not_clang "out" 100) = []
  /\ retCode (sample_run world_not_clang) = 0%Z
  /\ report (sample_run world_not_clang) = Some (sample_DoAnalysis [] bimap_empty).
Proof. repeat split; vm_compute; reflexivity. Qed.

Lemma RunAnalyze_retCode_witness :
  retCode (sample_run world_not_clang) = 0%Z
  /\ retCode (RunAnalyze "" "" "" (ParseBuildEvents sample_decode) sample_DoAnalysis
                world_not_clang ["" ; "--analyze"]%string) = 1%Z.
Proof.
  split.
  - destruct (RunAnalyze_retCode "" "" "" (ParseBuildEvents sample_decode)
                sample_DoAnalysis world_not_clang sample_argv) as [_ Hok].
    destruct Hok as (session & _ & Hcode & _); [|exact Hcode].
    intros [Hlt|[Hnone|(s & Hs & Hnil)]].
    + vm_compute in Hlt. lia.
    + vm_compute in Hnone. discriminate.
    + vm_compute in Hs. injection Hs as <-. vm_compute in Hnil. discriminate.
  - destruct (RunAnalyze_retCode "" "" "" (ParseBuildEvents sample_decode)
                sample_DoAnalysis world_not_clang ["" ; "--analyze"]%string) as [Hfail _].
    apply Hfail. left. simpl. lia.
Defined.

(** C4, as stated, fails: the file without the producer marker is skipped
    without a warning; the run prints its banner and its closing line only. *)
Lemma RunAnalyze_unmarked_is_silent :
  strstr (c_str doc_not_clang) clangMarker = false
  /\ printed (sample_run world_not_clang)
     = [msgAnalyzing "" "" "out"; msgDone "" "" world_not_clang].
Proof. split; vm_compute; reflexivity. Qed.

Lemma analyze_file_unmarked_witness :
  sample_step world_mixed sample_start "out/w.json" = sample_start
  /\ foldl (sample_step world_mixed) sample_start ["out/w.json"; "out/a.json"]%string
     = foldl (sample_step world_mixed) sample_start ["out/a.json"%string].
Proof.
  apply analyze_file_unmarked; vm_compute; [discriminate|reflexivity].
Defined.

(** C7 on a failing input: [a.json] puts one event in the store; [b.json] is
    a clang trace that adds none, and no "no trace events found" line is
    printed for it, nor anywhere in the run. *)
Lemma RunAnalyze_second_file_empty :
  let after_a := sample_step world_two_units sample_start "out/a.json" in
  let after_b := sample_step world_two_units after_a "out/b.json" in
  files (find_files world_two_units "out" 100) = ["out/a.json"; "out/b.json"]%string
  /\ strstr (c_str doc_no_events) clangMarker = true
  /\ length (events after_a) = 1%nat
  /\ events after_b = events after_a
  /\ console after_b = []
  /\ ~ In (msgNoTraceEvents "" "") (printed (sample_run world_two_units)).
Proof.
  repeat split; try (vm_compute; reflexivity).
  vm_compute. intros [H|[H|[]]]; discriminate.
Qed.

(* ===================================================================== *)
(** * The event store *)
(* ===================================================================== *)

Section StoreFacts.

Lemma defined_at_Some (v : BuildEvents) (pos : EventIndex) (e : BuildEvent) :
  defined_at v pos = Some e <->
  (0 <= event_idx pos)%Z /\ v !! Z.to_nat (event_idx pos) = Some e.
Proof.
  unfold defined_at, in_range, idx_of, EventIndex_idx.
  destruct (Z.leb_spec 0 (event_idx pos)) as [Hlo|Hlo]; simpl.
  - destruct (Z.ltb_spec (event_idx pos) (Z.of_nat (length v))) as [Hhi|Hhi].
    + intuition.
    + split; [discriminate|]. intros [_ Hl].
      apply lookup_lt_Some in Hl. lia.
  - split; [discriminate|]. intros [? _]. lia.
Qed.

Lemma defined_at_append (v later : BuildEvents) (e : BuildEvent) :
  defined_at (fst (append v e) ++ later) (snd (append v e)) = Some e.
Proof.
  apply defined_at_Some. simpl. unfold next_position, push_back.
  split; [lia|]. rewrite Nat2Z.id.
  rewrite <- app_assoc. simpl. apply list_lookup_middle. reflexivity.
Qed.

End StoreFacts.

(** C8, as stated, fails on its last part: [operator[]] does not test the
    handle, so with the sentinel handle on an empty store nothing makes the
    access fail; returning some record is among its behaviours. *)
Lemma operator_index_out_of_range_unchecked :
  in_range ([] : BuildEvents) EventIndex_default = false
  /\ ~ (forall o : Outcome BuildEvent,
          operator_index ([] : BuildEvents) EventIndex_default o -> o = @Aborts BuildEvent).
Proof.
  split; [reflexivity|].
  intros Hfails. specialize (Hfails (Returns BuildEvent_default) I).
  discriminate.
Qed.

(** C8 (amended): indexing with the handle [append] returned yields the
    appended record and nothing else, also after later appends; for a handle
    out of range [operator[]] performs no test, so the access is undefined and
    no outcome, failure or value, is guaranteed. *)
Theorem append_operator_index (v later : BuildEvents) (e : BuildEvent) :
  (forall o : Outcome BuildEvent,
     operator_index (fst (append v e) ++ later) (snd (append v e)) o
     <-> o = Returns e)
  /\ (forall (u : BuildEvents) (pos : EventIndex),
        in_range u pos = false ->
        forall o : Outcome BuildEvent, operator_index u pos o).
Proof.
  split.
  - intros o. unfold operator_index. rewrite defined_at_append. reflexivity.
  - intros u pos Hout o. unfold operator_index, defined_at. rewrite Hout. exact I.
Qed.

Lemma append_operator_index_witness :
  operator_index (fst (append [BuildEvent_default] BuildEvent_default))
                 (MkEventIndex 1) (Returns BuildEvent_default)
  /\ operator_index ([BuildEvent_default] : BuildEvents) (MkEventIndex 1)
                    (@Aborts BuildEvent).
Proof.
  destruct (append_operator_index [BuildEvent_default] [] BuildEvent_default)
    as [Hin Hout].
  split.
  - rewrite app_nil_r in Hin. by apply Hin.
  - apply Hout. reflexivity.
Defined.

(* ===================================================================== *)
(** * The name table *)
(* ===================================================================== *)

Section InternerFacts.

Lemma bimap_empty_wf : names_wf bimap_empty.
Proof.
  split; simpl.
  - intros s i. rewrite !lookup_empty. split; discriminate.
  - intros i s. rewrite lookup_empty. discriminate.
Qed.

Lemma next_handle_fresh (names : BuildNames) :
  names_wf names -> right_view names !! Z.of_nat (bimap_size names) = None.
Proof.
  intros [_ Hdense].
  destruct (right_view names !! Z.of_nat (bimap_size names)) as [s|] eqn:Hs;
    [|reflexivity].
  apply Hdense in Hs. lia.
Qed.

Lemma intern_seen (s : string) (h : DetailIndex) (names : BuildNames) :
  left_view names !! s = Some h -> intern s names = (h, names).
Proof. intros Hs. unfold intern. by rewrite Hs. Qed.

Lemma intern_new (s : string) (names : BuildNames) :
  names_wf names -> left_view names !! s = None ->
  intern s names =
    (MkDetailIndex (Z.of_nat (bimap_size names)),
     {| left_view := <[s := MkDetailIndex (Z.of_nat (bimap_size names))]> (left_view names);
        right_view := <[Z.of_nat (bimap_size names) := s]> (right_view names) |}).
Proof.
  intros Hwf Hs. unfold intern, bimap_insert. rewrite Hs. simpl.
  by rewrite (next_handle_fresh names Hwf).
Qed.

Lemma intern_wf (s : string) (names : BuildNames) :
  names_wf names -> names_wf (snd (intern s names)).
Proof.
  intros Hwf. destruct (left_view names !! s) as [h|] eqn:Hs.
  - by rewrite (intern_seen s h names Hs).
  - rewrite (intern_new s names Hwf Hs). simpl.
    pose proof (next_handle_fresh names Hwf) as Hfresh.
    destruct Hwf as [Hpairs Hdense]. split; simpl.
    + intros s' i.
      destruct (decide (s = s')) as [<-|Hne], (decide (Z.of_nat (bimap_size names) = i))
        as [<-|Hni]; simplify_map_eq.
      * done.
      * split; [congruence|]. intros Hr. apply Hpairs in Hr. congruence.
      * split; [|congruence]. intros Hl. apply Hpairs in Hl. congruence.
      * apply Hpairs.
    + intros i s'. unfold bimap_size. simpl.
      rewrite map_size_insert_None by assumption.
      destruct (decide (Z.of_nat (size (left_view names)) = i)) as [<-|Hni].
      * intros _. lia.
      * rewrite lookup_insert_ne by assumption. intros Hr.
        apply Hdense in Hr. unfold bimap_size in Hr. lia.
Qed.

(** After [intern s] the table maps [s] to the handle returned. *)
Lemma intern_left (s : string) (names : BuildNames) :
  names_wf names ->
  left_view (snd (intern s names)) !! s = Some (fst (intern s names)).
Proof.
  intros Hwf. destruct (left_view names !! s) as [h|] eqn:Hs.
  - by rewrite (intern_seen s h names Hs).
  - rewrite (intern_new s names Hwf Hs). simpl. by rewrite lookup_insert_eq.
Qed.

(** Entries are never changed or removed. *)
Lemma intern_keeps (s s' : string) (h : DetailIndex) (names : BuildNames) :
  names_wf names ->
  left_view names !! s' = Some h ->
  left_view (snd (intern s names)) !! s' = Some h.
Proof.
  intros Hwf Hs'. destruct (left_view names !! s) as [h0|] eqn:Hs.
  - by rewrite (intern_seen s h0 names Hs).
  - rewrite (intern_new s names Hwf Hs). simpl.
    rewrite lookup_insert_ne; [assumption|congruence].
Qed.

Lemma foldl_intern_wf (history : list string) (names : BuildNames) :
  names_wf names ->
  names_wf (foldl (fun names s => snd (intern s names)) names history).
Proof.
  revert names. induction history as [|s rest IH]; intros names Hwf; simpl.
  - assumption.
  - apply IH. by apply intern_wf.
Qed.

Lemma intern_all_wf (history : list string) : names_wf (intern_all history).
Proof. apply foldl_intern_wf, bimap_empty_wf. Qed.

Lemma left_resolve (names : BuildNames) (s : string) (h : DetailIndex) :
  names_wf names ->
  (left_view names !! s = Some h <-> resolve h names = Some s).
Proof. intros [Hpairs _]. destruct h as [i]. apply Hpairs. Qed.

End InternerFacts.

(** C1: in the table reached by any sequence of interned strings, interning
    [s1], then [s2], then [s1] again returns for [s1] the handle it got the
    first time; the handle of each string resolves to that string, at once and
    after later interning; the handles of [s1] and [s2] are equal exactly when
    the strings are; and the table pairs strings and handles one to one. *)
Theorem intern_bijection (history : list string) (s1 s2 : string) :
  let t0 := intern_all history in
  let h1 := fst (intern s1 t0) in
  let t1 := snd (intern s1 t0) in
  let h2 := fst (intern s2 t1) in
  let t2 := snd (intern s2 t1) in
  fst (intern s1 t2) = h1
  /\ snd (intern s1 t2) = t2
  /\ resolve h1 t1 = Some s1
  /\ resolve h1 t2 = Some s1
  /\ resolve h2 t2 = Some s2
  /\ (h1 = h2 <-> s1 = s2)
  /\ (forall (s : string) (h : DetailIndex),
        left_view t2 !! s = Some h <-> resolve h t2 = Some s).
Proof.
  intros t0 h1 t1 h2 t2.
  assert (Hwf0 : names_wf t0) by apply intern_all_wf.
  assert (Hwf1 : names_wf t1) by (by apply intern_wf).
  assert (Hwf2 : names_wf t2) by (by apply intern_wf).
  assert (Hl1 : left_view t1 !! s1 = Some h1) by (by apply intern_left).
  assert (Hl2 : left_view t2 !! s2 = Some h2) by (by apply intern_left).
  assert (Hl12 : left_view t2 !! s1 = Some h1) by (by apply intern_keeps).
  rewrite (intern_seen s1 h1 t2 Hl12). simpl.
  repeat split.
  - by apply left_resolve.
  - by apply left_resolve.
  - by apply left_resolve.
  - intros Heq. rewrite <- Heq in Hl2.
    apply left_resolve in Hl12, Hl2; try assumption. congruence.
  - intros Heq. subst s2. congruence.
  - by apply left_resolve.
  - by apply left_resolve.
Qed.

Lemma intern_bijection_witness :
  fst (intern "foo" (intern_all ["bar"; "foo"; "baz"]%string)) = MkDetailIndex 1
  /\ fst (intern "foo" (intern_all ["bar"; "foo"; "baz"]%string))
     <> fst (intern "qux" (snd (intern "foo" (intern_all ["bar"; "foo"; "baz"]%string)))).
Proof.
  destruct (intern_bijection ["bar"; "foo"; "baz"]%string "foo" "qux")
    as (_ & _ & _ & _ & _ & Hiff & _).
  split; [vm_compute; reflexivity|].
  intros Heq. apply Hiff in Heq. discriminate.
Defined.

(* ===================================================================== *)
(** * Tree reconstruction *)
(* ===================================================================== *)

Section ParserFacts.

Lemma add_child_length (p c : EventIndex) (ev : BuildEvents) :
  length (add_child p c ev) = length ev.
Proof. unfold add_child. case_match; [apply length_alter|reflexivity]. Qed.

Lemma add_child_lookup (p c : EventIndex) (ev : BuildEvents) (i : nat) (e : BuildEvent) :
  ev !! i = Some e ->
  exists e' : BuildEvent, add_child p c ev !! i = Some e' /\ same_span e e'.
Proof.
  intros He. unfold add_child. case_match.
  - destruct (decide (Z.to_nat (event_idx p) = i)) as [<-|Hne].
    + rewrite list_lookup_alter_eq, He. simpl. eexists. split; [reflexivity|].
      repeat split.
    + rewrite list_lookup_alter_ne by assumption.
      exists e. repeat split. assumption.
  - exists e. repeat split. assumption.
Qed.

Lemma pop_until_top (ev : BuildEvents) (r : TraceRecord) (stack : list EventIndex)
    (top : EventIndex) (rest : list EventIndex) :
  pop_until ev r stack = top :: rest -> contains ev top r = true.
Proof.
  induction stack as [|t stack IH]; simpl; [discriminate|].
  destruct (contains ev t r) eqn:Hc.
  - intros [= <- _]. assumption.
  - apply IH.
Qed.

Lemma addEvent_events (st : ParserState) (r : TraceRecord) :
  exists (d : DetailIndex),
    let p := hd (MkEventIndex (-1)) (pop_until (ps_events st) r (ps_stack st)) in
    ps_events (addEvent st r)
    = add_child p (MkEventIndex (next_position (ps_events st))) (ps_events st)
      ++ [ {| type := rec_type r; ts := rec_ts r; dur := rec_dur r;
              detailIndex := d; parent := p; children := [] |} ].
Proof.
  unfold addEvent. destruct (rec_detail r) as [s|].
  - destruct (intern s (ps_names st)) as [d nm]. by exists d.
  - by exists DetailIndex_default.
Qed.

Lemma addEvent_ok (st : ParserState) (r : TraceRecord) :
  store_ok (ps_events st) -> store_ok (ps_events (addEvent st r)).
Proof.
  intros Hok. destruct (addEvent_events st r) as [d Hev]. simpl in Hev.
  rewrite Hev. clear Hev.
  set (ev := ps_events st) in *.
  set (stack := pop_until ev r (ps_stack st)).
  set (p := hd (MkEventIndex (-1)) stack).
  set (h := MkEventIndex (next_position ev)).
  assert (Hkeep : forall (q : EventIndex) (e : BuildEvent),
             defined_at ev q = Some e ->
             exists e', defined_at (add_child p h ev ++ [ {|
                 type := rec_type r; ts := rec_ts r; dur := rec_dur r;
                 detailIndex := d; parent := p; children := [] |} ]) q = Some e'
                        /\ same_span e e').
  { intros q e Hq. apply defined_at_Some in Hq as [Hq0 Hq].
    destruct (add_child_lookup p h ev _ e Hq) as (e' & He' & Hspan).
    exists e'. split; [|assumption].
    apply defined_at_Some. split; [assumption|].
    by apply lookup_app_l_Some. }
  intros i e He.
  destruct (decide (i < length ev)%nat) as [Hi|Hi].
  - rewrite lookup_app_l in He by (rewrite add_child_length; exact Hi).
    destruct (lookup_lt_is_Some_2 ev i Hi) as [e0 He0].
    destruct (add_child_lookup p h ev i e0 He0) as (e1 & He1 & Hts & Hdur & Hpar).
    assert (e1 = e) by congruence. subst e1.
    destruct (Hok i e0 He0) as [Hroot|(p0 & Hp0 & Hlo & Hhi)].
    + left. congruence.
    + right. rewrite Hpar.
      destruct (Hkeep _ _ Hp0) as (p1 & Hp1 & Hts1 & Hdur1 & _).
      exists p1. split; [assumption|]. unfold within. lia.
  - apply lookup_app_Some in He as [He|[_ He]].
    { apply lookup_lt_Some in He. rewrite add_child_length in He. lia. }
    apply list_lookup_singleton_Some in He as [_ <-]. simpl.
    subst p. destruct stack as [|top rest] eqn:Hstack; simpl; [by left|].
    right. apply pop_until_top in Hstack. unfold contains in Hstack.
    destruct (defined_at ev top) as [p0|] eqn:Hp0; [|discriminate].
    apply andb_prop in Hstack as [Hlo Hhi].
    apply Z.leb_le in Hlo, Hhi.
    destruct (Hkeep _ _ Hp0) as (p1 & Hp1 & Hts1 & Hdur1 & _).
    exists p1. split; [assumption|]. unfold within. simpl. lia.
Qed.

Lemma foldl_addEvent_ok (records : list TraceRecord) (st : ParserState) :
  store_ok (ps_events st) -> store_ok (ps_events (foldl addEvent st records)).
Proof.
  revert st. induction records as [|r rest IH]; intros st Hok; simpl.
  - assumption.
  - apply IH. by apply addEvent_ok.
Qed.

Variable decode : string -> option (list TraceRecord).

Lemma ParseBuildEvents_ok (fileName jsonText : string)
    (ev : BuildEvents) (nm : BuildNames) :
  store_ok ev -> store_ok (fst (ParseBuildEvents decode fileName jsonText ev nm)).
Proof.
  intros Hok. unfold ParseBuildEvents.
  destruct (decode jsonText) as [records|]; simpl; [|assumption].
  by apply foldl_addEvent_ok.
Qed.

Lemma foldl_ParseBuildEvents_ok (docs : list (string * string))
    (acc : BuildEvents * BuildNames) :
  store_ok (fst acc) ->
  store_ok (fst (foldl (fun acc doc =>
                          ParseBuildEvents decode (fst doc) (snd doc) (fst acc) (snd acc))
                       acc docs)).
Proof.
  revert acc. induction docs as [|doc rest IH]; intros acc Hok; simpl.
  - assumption.
  - apply IH. by apply ParseBuildEvents_ok.
Qed.

End ParserFacts.

(** C2: after any sequence of documents has been parsed into a fresh store,
    every event whose parent handle is not the sentinel has its parent in the
    store, and the parent's interval contains the event's:
    [parent.ts <= child.ts] and [child.ts + child.dur <= parent.ts + parent.dur]. *)
Theorem containment_invariant (decode : string -> option (list TraceRecord))
    (docs : list (string * string)) (i : nat) (e : BuildEvent) :
  fst (parse_all decode docs) !! i = Some e ->
  parent e <> MkEventIndex (-1) ->
  exists p : BuildEvent,
    defined_at (fst (parse_all decode docs)) (parent e) = Some p
    /\ (ts p <= ts e)%Z
    /\ (ts e + dur e <= ts p + dur p)%Z.
Proof.
  intros He Hparent.
  assert (Hok : store_ok (fst (parse_all decode docs))).
  { apply foldl_ParseBuildEvents_ok. intros j x Hx. discriminate. }
  destruct (Hok i e He) as [Hroot|(p & Hp & Hlo & Hhi)]; [contradiction|].
  exists p. auto.
Qed.

Lemma containment_invariant_witness :
  exists p : BuildEvent,
    defined_at (fst (parse_all sample_decode [("out/n.json"%string, doc_nested)]))
               (MkEventIndex 0) = Some p
    /\ (ts p <= 100)%Z /\ (100 + 300 <= ts p + dur p)%Z.
Proof.
  apply (containment_invariant sample_decode [("out/n.json"%string, doc_nested)]
           1%nat nested_child).
  - vm_compute. reflexivity.
  - discriminate.
Defined.

(* ===================================================================== *)
(** * Aggregation *)
(* ===================================================================== *)

Section AggregatorFacts.

Lemma accumulate_same (m : gmap (BuildEventType * Z) (Z * nat)) (e : BuildEvent) :
  accumulate m e !! event_key e = add_events (m !! event_key e) [e].
Proof.
  unfold accumulate. destruct (m !! event_key e) as [[total count]|] eqn:Hm.
  - rewrite lookup_insert_eq. simpl.
    by rewrite Z.add_0_r, Nat.add_1_r.
  - rewrite lookup_insert_eq. simpl. by rewrite Z.add_0_r.
Qed.

Lemma accumulate_other (m : gmap (BuildEventType * Z) (Z * nat)) (e : BuildEvent)
    (k : AggKey) :
  event_key e <> k -> accumulate m e !! k = m !! k.
Proof.
  intros Hne. unfold accumulate.
  destruct (m !! event_key e) as [[total count]|]; by rewrite lookup_insert_ne.
Qed.

Lemma foldl_accumulate_lookup (events : list BuildEvent) :
  forall (m : gmap (BuildEventType * Z) (Z * nat)) (k : AggKey),
    foldl accumulate m events !! k = add_events (m !! k) (events_with k events).
Proof.
  induction events as [|e rest IH]; intros m k; simpl; [reflexivity|].
  rewrite IH. unfold events_with. rewrite filter_cons.
  destruct (decide (event_key e = k)) as [<-|Hne].
  - rewrite accumulate_same.
    destruct (filter _ rest) as [|e' l] eqn:Hl; [reflexivity|].
    destruct (m !! event_key e) as [[total count]|]; simpl.
    + rewrite Z.add_0_r, Nat.add_1_r. f_equal.
      apply pair_equal_spec. split; lia.
    + rewrite Z.add_0_r. f_equal.
  - by rewrite accumulate_other.
Qed.

End AggregatorFacts.

(** C6: for every (kind, detail handle) pair the aggregated entry is the sum
    of the durations of the events with that pair together with their number,
    and there is an entry exactly for the pairs that occur; for two
    translation units with one [InstantiateFunction] event named [foo] each,
    of durations 100 and 250, the entry of ([InstantiateFunction], [foo]) is
    350 with count 2. *)
Theorem aggregate_additive :
  (forall (events : BuildEvents) (k : AggKey),
      aggregate events !! k =
        match events_with k events with
        | [] => None
        | l => Some (sum_durations l, length l)
        end)
  /\ (exists foo : DetailIndex,
        left_view (snd two_units) !! "foo"%string = Some foo
        /\ resolve foo (snd two_units) = Some "foo"%string
        /\ length (fst two_units) = 2%nat
        /\ aggregate (fst two_units) !! (kInstantiateFunction, detail_idx foo)
           = Some (350%Z, 2%nat)).
Proof.
  split.
  - intros events k. unfold aggregate. rewrite foldl_accumulate_lookup.
    rewrite lookup_empty. destruct (events_with k events); reflexivity.
  - exists (MkDetailIndex 0). repeat split; vm_compute; reflexivity.
Qed.

(* ===================================================================== *)
(** * Further properties of the candidate set *)
(* ===================================================================== *)

Section CandidateSet.
Variable w : World.

Lemma set_insert_Forall (P : string -> Prop) (x : string) (s : string_set) :
  P x -> Forall P s -> Forall P (set_insert x s).
Proof.
  intros Hx Hs. apply Forall_forall. intros y Hy.
  apply list_elem_of_In, set_insert_In in Hy as [->|Hy]; [assumption|].
  rewrite Forall_forall in Hs. apply Hs. by apply list_elem_of_In.
Qed.

Lemma set_insert_sorted (x : string) (s : string_set) :
  StronglySorted string_lt s -> StronglySorted string_lt (set_insert x s).
Proof.
  induction 1 as [|y rest Hrest IH Hall]; simpl.
  - repeat constructor.
  - destruct (String.compare x y) eqn:Hc.
    + by constructor.
    + constructor; [by constructor|].
      constructor; [assumption|].
      eapply Forall_impl; [exact Hall|].
      intros z Hz. by apply (compare_Lt_trans x y z).
    + constructor; [assumption|].
      apply set_insert_Forall; [|assumption].
      by apply compare_Gt_Lt.
Qed.

Lemma OnFile_sorted (self : JsonFileFinder) (f : cf_file_t) :
  StronglySorted string_lt (files self) ->
  StronglySorted string_lt (files (OnFile w self f)).
Proof.
  intros Hs. rewrite OnFile_accepts.
  destruct (accepts w _ _ f); simpl; [by apply set_insert_sorted|assumption].
Qed.

Lemma foldl_OnFile_sorted (fs : list cf_file_t) (self : JsonFileFinder) :
  StronglySorted string_lt (files self) ->
  StronglySorted string_lt (files (foldl (OnFile w) self fs)).
Proof.
  revert self. induction fs as [|f fs IH]; intros self Hs; simpl; [assumption|].
  apply IH. by apply OnFile_sorted.
Qed.

Lemma sorted_NoDup (s : string_set) : StronglySorted string_lt s -> List.NoDup s.
Proof.
  induction 1 as [|y rest Hrest IH Hall]; constructor; [|assumption].
  intros Hin. rewrite Forall_forall in Hall.
  apply list_elem_of_In, Hall in Hin. by apply compare_Lt_irrefl in Hin.
Qed.

Lemma foldl_OnFile_times (fs : list cf_file_t) (self : JsonFileFinder) :
  startTime (foldl (OnFile w) self fs) = startTime self
  /\ endTime (foldl (OnFile w) self fs) = endTime self.
Proof.
  revert self. induction fs as [|f fs IH]; intros self; simpl; [done|].
  destruct (IH (OnFile w self f)) as [-> ->]. apply OnFile_times.
Qed.

Lemma selected_times (self self' : JsonFileFinder) (f : cf_file_t) :
  startTime self' = startTime self -> endTime self' = endTime self ->
  selected w self' f <-> selected w self f.
Proof. intros Hs He. unfold selected. by rewrite Hs, He. Qed.

Lemma selected_or_not (self : JsonFileFinder) (f : cf_file_t) :
  selected w self f \/ ~ selected w self f.
Proof.
  unfold selected.
  destruct (cf_get_ext w f) as [ext|]; [|right; intros [? _]; discriminate].
  destruct (decide (ext = ".json"%string)) as [->|Hne];
    [|right; intros [? _]; congruence].
  destruct (cf_get_file_time w (path f)) as [t|];
    [|right; intros [_ (t & ? & _)]; discriminate].
  destruct (decide (startTime self <= t <= endTime self)%Z) as [Hin|Hout].
  - left. split; [reflexivity|]. by exists t.
  - right. intros [_ (t' & [= <-] & Hin)]. contradiction.
Qed.

Lemma OnFile_In (self : JsonFileFinder) (f : cf_file_t) (x : string) :
  In x (files (OnFile w self f))
  <-> In x (files self)
      \/ (selected w self f /\ x = replace backslash slash (path f)).
Proof.
  destruct (selected_or_not self f) as [Hsel|Hno].
  - rewrite (OnFile_selected w self f Hsel). simpl. rewrite set_insert_In. tauto.
  - rewrite (OnFile_not_selected w self f Hno). tauto.
Qed.

Lemma foldl_OnFile_In (fs : list cf_file_t) (self : JsonFileFinder) (x : string) :
  In x (files (foldl (OnFile w) self fs))
  <-> In x (files self)
      \/ exists f : cf_file_t,
           In f fs /\ selected w self f /\ x = replace backslash slash (path f).
Proof.
  revert self. induction fs as [|f fs IH]; intros self; simpl.
  - split; [by left|]. intros [?|(f & [] & _)]. assumption.
  - rewrite IH, OnFile_In. destruct (OnFile_times w self f) as [Hs He].
    split.
    + intros [[Hin|[Hsel ->]]|(g & Hg & Hsel & ->)].
      * by left.
      * right. exists f. auto.
      * right. exists g. split; [by right|].
        split; [|reflexivity]. by apply (selected_times self (OnFile w self f)).
    + intros [Hin|(g & [<-|Hg] & Hsel & ->)].
      * left. by left.
      * left. right. auto.
      * right. exists g. split; [assumption|].
        split; [|reflexivity]. by apply (selected_times self (OnFile w self f)).
Qed.

Lemma replace_no_old (old new : ascii) (s : string) (i : nat) :
  old <> new -> String.get i (replace old new s) <> Some old.
Proof.
  intros Hne. rewrite replace_get.
  destruct (String.get i s) as [c|]; simpl; [|discriminate].
  destruct (Ascii.eqb_spec c old); congruence.
Qed.

(** X1: however the traversal orders or repeats the files, the candidate
    paths are kept in strictly ascending order of [std::string::operator<];
    in particular no path occurs twice, and the loop of [RunAnalyze] visits
    them in that order. *)
Theorem find_files_sorted (inFile : string) (session : Z) :
  StronglySorted string_lt (files (find_files w inFile session))
  /\ List.NoDup (files (find_files w inFile session)).
Proof.
  assert (Hs : StronglySorted string_lt (files (find_files w inFile session))).
  { unfold find_files. apply foldl_OnFile_sorted. simpl. constructor. }
  split; [exact Hs|by apply sorted_NoDup].
Qed.

(** X2: a path is a candidate exactly when it is the path, with backslashes
    turned into slashes, of a traversed file with extension [".json"] whose
    modification time can be read and lies between the session start and
    the time of the call. *)
Theorem find_files_In (inFile : string) (session : Z) (x : string) :
  In x (files (find_files w inFile session))
  <-> exists f : cf_file_t,
        In f (cf_traverse w inFile)
        /\ cf_get_ext w f = Some ".json"%string
        /\ (exists t : Z, cf_get_file_time w (path f) = Some t
                          /\ (session <= t <= time_now w)%Z)
        /\ x = replace backslash slash (path f).
Proof.
  unfold find_files. rewrite foldl_OnFile_In. simpl. unfold selected. simpl.
  split.
  - intros [[]|(f & Hf & [Hext Ht] & ->)]. exists f. auto.
  - intros (f & Hf & Hext & Ht & ->). right. exists f. auto.
Qed.

(** X3: no candidate path contains a backslash. *)
Theorem find_files_no_backslash (inFile : string) (session : Z) (x : string) (i : nat) :
  In x (files (find_files w inFile session)) ->
  String.get i x <> Some backslash.
Proof.
  unfold find_files. rewrite foldl_OnFile_In. simpl.
  intros [[]|(f & _ & _ & ->)]. by apply replace_no_old.
Qed.

End CandidateSet.

Lemma find_files_In_witness :
  In "out/w.json"%string (files (find_files world_mixed "out" 100)).
Proof.
  apply find_files_In. exists file_win.
  split; [vm_compute; tauto|].
  split; [vm_compute; reflexivity|].
  split; [exists 120%Z; split; [vm_compute; reflexivity|vm_compute; split; discriminate]|].
  vm_compute. reflexivity.
Defined.

Lemma find_files_no_backslash_witness :
  String.get 3 "out/w.json" <> Some backslash.
Proof.
  apply (find_files_no_backslash world_mixed "out" 100).
  vm_compute. tauto.
Defined.

(* ===================================================================== *)
(** * Further properties of CompareIgnoreNewlines *)
(* ===================================================================== *)

Section CompareMore.

Lemma compare_rest_sym (n : nat) :
  forall la lb : list ascii,
    (length la <= n)%nat -> compare_rest la lb = compare_rest lb la.
Proof.
  induction n as [|n IH]; intros la lb Hlen.
  - destruct la; [|simpl in Hlen; lia]. by destruct lb.
  - destruct (decide (la = [])) as [->|Hna]; [by destruct lb|].
    destruct (decide (lb = [])) as [->|Hnb]; [by destruct la|].
    rewrite (compare_rest_unfold la lb), (compare_rest_unfold lb la) by assumption.
    pose proof (skip_cr_length la) as Hsk.
    destruct (skip_cr la) as [|x ra] eqn:Ha, (skip_cr lb) as [|y rb];
      try reflexivity.
    rewrite (Ascii.eqb_sym x y). f_equal. apply IH.
    destruct la; [congruence|]. simpl in *. lia.
Qed.

Lemma strip_no_cr (l : list ascii) : ~ In CR l -> strip l = l.
Proof.
  induction l as [|c rest IH]; intros Hno; [reflexivity|].
  unfold strip. rewrite filter_cons_True.
  - f_equal. apply IH. intros Hin. apply Hno. by right.
  - intros ->. apply Hno. by left.
Qed.

Lemma cr_followed_no_cr (l : list ascii) : ~ In CR l -> cr_followed l = true.
Proof.
  induction l as [|c rest IH]; intros Hno; [reflexivity|]. simpl.
  destruct (Ascii.eqb_spec c CR) as [->|_]; [exfalso; apply Hno; by left|].
  apply IH. intros Hin. apply Hno. by right.
Qed.

Lemma to_crlf_strip (s : string) :
  no_cr s -> strip (list_ascii_of_string (to_crlf s)) = list_ascii_of_string s.
Proof.
  unfold no_cr. induction s as [|c rest IH]; intros Hno; [reflexivity|]. simpl.
  assert (Hrest : ~ In CR (list_ascii_of_string rest))
    by (intros Hin; apply Hno; by right).
  assert (Hc : c <> CR) by (intros ->; apply Hno; by left).
  destruct (Ascii.eqb_spec c LF) as [->|Hlf]; simpl; unfold strip.
  - rewrite filter_cons_False by (intros Hn; by apply Hn).
    rewrite filter_cons_True by discriminate.
    f_equal. by apply IH.
  - rewrite filter_cons_True by assumption. f_equal. by apply IH.
Qed.

Lemma to_crlf_cr_followed (s : string) :
  no_cr s -> cr_followed (list_ascii_of_string (to_crlf s)) = true.
Proof.
  unfold no_cr. induction s as [|c rest IH]; intros Hno; [reflexivity|]. simpl.
  assert (Hrest : ~ In CR (list_ascii_of_string rest))
    by (intros Hin; apply Hno; by right).
  assert (Hc : c <> CR) by (intros ->; apply Hno; by left).
  destruct (Ascii.eqb_spec c LF) as [->|Hlf].
  - change (cr_followed (CR :: LF :: list_ascii_of_string (to_crlf rest)) = true).
    cbn. by apply IH.
  - change (cr_followed (c :: list_ascii_of_string (to_crlf rest)) = true).
    cbn [cr_followed]. destruct (Ascii.eqb_spec c CR); [contradiction|].
    by apply IH.
Qed.

Lemma list_ascii_of_string_inj (a b : string) :
  list_ascii_of_string a = list_ascii_of_string b -> a = b.
Proof.
  intros Heq. rewrite <- (string_of_list_ascii_of_string a),
    <- (string_of_list_ascii_of_string b). by rewrite Heq.
Qed.

(** Accepting is the same as agreeing after deleting carriage returns, for
    any two texts in which no carriage return is doubled or last. *)
Lemma compare_rest_iff (la lb : list ascii) :
  cr_followed la = true -> cr_followed lb = true ->
  compare_rest la lb = true <-> strip la = strip lb.
Proof.
  intros Ha Hb. split.
  - by apply (compare_rest_sound (length la)).
  - by apply (compare_rest_complete (length la)).
Qed.

End CompareMore.

(** X4: [CompareIgnoreNewlines] does not depend on the order of its two
    arguments. *)
Theorem CompareIgnoreNewlines_sym (a b : string) :
  CompareIgnoreNewlines a b = CompareIgnoreNewlines b a.
Proof.
  rewrite !CompareIgnoreNewlines_rest. f_equal.
  by apply (compare_rest_sym (length (list_ascii_of_string a))).
Qed.

(** X5: for texts without carriage returns, a text written with CR LF line
    ends compares equal to a text written with LF line ends exactly when the
    two texts are the same; so a file and its CR LF copy always match. *)
Theorem CompareIgnoreNewlines_crlf (a b : string) :
  no_cr a -> no_cr b ->
  (CompareIgnoreNewlines (to_crlf a) b = Some true <-> a = b)
  /\ CompareIgnoreNewlines (to_crlf a) a = Some true.
Proof.
  intros Ha Hb.
  assert (Hiff : forall c : string, no_cr c ->
            CompareIgnoreNewlines (to_crlf a) c = Some true <-> a = c).
  { intros c Hc. rewrite CompareIgnoreNewlines_rest.
    split.
    - intros [= Hcmp]. apply compare_rest_iff in Hcmp.
      + rewrite to_crlf_strip, strip_no_cr in Hcmp by assumption.
        by apply list_ascii_of_string_inj.
      + by apply to_crlf_cr_followed.
      + by apply cr_followed_no_cr.
    - intros <-. f_equal. apply compare_rest_iff.
      + by apply to_crlf_cr_followed.
      + by apply cr_followed_no_cr.
      + by rewrite to_crlf_strip, strip_no_cr. }
  split; [by apply Hiff|]. by apply Hiff.
Qed.

Lemma CompareIgnoreNewlines_crlf_witness :
  CompareIgnoreNewlines (to_crlf (lf "a" "b")) (lf "a" "b") = Some true.
Proof.
  apply (CompareIgnoreNewlines_crlf (lf "a" "b") (lf "a" "b")).
  - vm_compute. intros [H|[H|[H|[]]]]; discriminate.
  - vm_compute. intros [H|[H|[H|[]]]]; discriminate.
Defined.

(** X6: on strings without carriage returns [CompareIgnoreNewlines] is
    equality of strings. *)
Theorem CompareIgnoreNewlines_no_cr (a b : string) :
  no_cr a -> no_cr b ->
  (CompareIgnoreNewlines a b = Some true <-> a = b).
Proof.
  intros Ha Hb. rewrite CompareIgnoreNewlines_rest. split.
  - intros [= Hcmp]. apply compare_rest_iff in Hcmp; try by apply cr_followed_no_cr.
    rewrite !strip_no_cr in Hcmp by assumption.
    by apply list_ascii_of_string_inj.
  - intros <-. f_equal. apply compare_rest_iff; try by apply cr_followed_no_cr.
    reflexivity.
Qed.

Lemma CompareIgnoreNewlines_no_cr_witness :
  CompareIgnoreNewlines "ab" "ab" = Some true
  /\ CompareIgnoreNewlines "ab" "ac" <> Some true.
Proof.
  assert (Hab : no_cr "ab") by (vm_compute; intros [H|[H|[]]]; discriminate).
  assert (Hac : no_cr "ac") by (vm_compute; intros [H|[H|[]]]; discriminate).
  split.
  - by apply (CompareIgnoreNewlines_no_cr "ab" "ab").
  - intros Heq. apply (CompareIgnoreNewlines_no_cr "ab" "ac") in Heq; [|done..].
    discriminate.
Defined.

(* ===================================================================== *)
(** * Further properties of the loop of RunAnalyze *)
(* ===================================================================== *)

Section LoopMore.
Variables kYellow kRed kReset : string.
Variable Analysis : BuildEvents -> BuildNames -> string.

Lemma c_str_app_NUL (pre rest : string) :
  c_str (pre +:+ String NUL rest) = c_str pre.
Proof.
  induction pre as [|c pre IH]; simpl; [reflexivity|].
  destruct (Ascii.eqb c NUL); [reflexivity|]. by rewrite IH.
Qed.

Lemma app_NUL_not_empty (pre rest : string) :
  pre +:+ String NUL rest <> EmptyString.
Proof. destruct pre; discriminate. Qed.



(** X7: the producer marker is searched in the C string of the file's bytes,
    so a NUL byte ends the search: a file whose bytes before the first NUL do
    not hold the marker is skipped, without a message and without reaching
    the parser, whatever follows the NUL. *)
Theorem analyze_file_marker_after_NUL
    (Parse : string -> string -> BuildEvents -> BuildNames -> BuildEvents * BuildNames)
    (w : World) (st : LoopState) (file pre rest : string) :
  ReadFileToString w file = pre +:+ String NUL rest ->
  strstr (c_str pre) clangMarker = false ->
  analyze_file kYellow kReset Parse w st file = st.
Proof.
  intros Hread Hpre. unfold analyze_file. rewrite Hread.
  destruct (String.eqb_spec (pre +:+ String NUL rest) EmptyString) as [He|_].
  { by apply app_NUL_not_empty in He. }
  by rewrite c_str_app_NUL, Hpre.
Qed.


End LoopMore.

Lemma analyze_file_marker_after_NUL_witness :
  strstr doc_marker_after_NUL clangMarker = true
  /\ sample_step (sample_world [(file_a, 150%Z, doc_marker_after_NUL)])
                 sample_start "out/a.json" = sample_start.
Proof.
  split; [vm_compute; reflexivity|].
  apply (analyze_file_marker_after_NUL "" "" (ParseBuildEvents sample_decode)
           _ _ _ "{" doc_foo_100); vm_compute; reflexivity.
Defined.


(* ===================================================================== *)
(** * FiletimeToTime *)
(* ===================================================================== *)

(** X9: for every [FILETIME] (two 32-bit halves) the unsigned arithmetic of
    [FiletimeToTime] and the conversion to [time_t] lose nothing: the result
    is the number of whole seconds in the tick count minus the 11644473600
    seconds between 1601 and 1970, negative for times before 1970. *)
Theorem FiletimeToTime_exact (ft : FILETIME) :
  (0 <= dwLowDateTime ft < 2 ^ 32)%Z ->
  (0 <= dwHighDateTime ft < 2 ^ 32)%Z ->
  FiletimeToTime ft
  = ((dwHighDateTime ft * 2 ^ 32 + dwLowDateTime ft) / 10000000 - 11644473600)%Z
  /\ (-11644473600 <= FiletimeToTime ft <= 1833029933770)%Z.
Proof.
  intros Hlo Hhi. unfold FiletimeToTime, QuadPart.
  rewrite (Z.mod_small (dwLowDateTime ft)), (Z.mod_small (dwHighDateTime ft))
    by assumption.
  set (q := (dwHighDateTime ft * 2 ^ 32 + dwLowDateTime ft)%Z).
  assert (Hq : (0 <= q < 2 ^ 64)%Z) by (subst q; lia).
  assert (Hs : (0 <= q / 10000000 <= 1844674407370)%Z).
  { split; [apply Z.div_pos; lia|].
    apply Z.lt_succ_r. apply Z.div_lt_upper_bound; lia. }
  set (s := (q / 10000000)%Z) in *.
  assert (Hval : as_time_t ((s - 11644473600) mod 2 ^ 64) = (s - 11644473600)%Z).
  { unfold as_time_t. destruct (Z_lt_le_dec s 11644473600) as [Hneg|Hpos].
    - replace ((s - 11644473600) mod 2 ^ 64)%Z with (s - 11644473600 + 2 ^ 64)%Z.
      + destruct (Z.ltb_spec (s - 11644473600 + 2 ^ 64) (2 ^ 63)); lia.
      + symmetry. rewrite <- (Z.mod_add _ 1) by lia.
        rewrite Z.mul_1_l. apply Z.mod_small. lia.
    - rewrite Z.mod_small by lia.
      destruct (Z.ltb_spec (s - 11644473600) (2 ^ 63)); lia. }
  rewrite Hval. lia.
Qed.

Lemma FiletimeToTime_exact_witness :
  FiletimeToTime {| dwLowDateTime := 3577643008; dwHighDateTime := 27111902 |} = 0%Z
  /\ FiletimeToTime {| dwLowDateTime := 0; dwHighDateTime := 0 |} = (-11644473600)%Z.
Proof.
  split.
  - destruct (FiletimeToTime_exact
                {| dwLowDateTime := 3577643008; dwHighDateTime := 27111902 |})
      as [Hv _]; [simpl; lia..|].
    rewrite Hv. reflexivity.
  - destruct (FiletimeToTime_exact {| dwLowDateTime := 0; dwHighDateTime := 0 |})
      as [Hv _]; [simpl; lia..|].
    rewrite Hv. reflexivity.
Defined.

(* ===================================================================== *)
(** * The session file: written by RunStart, read by ReadSessionFile *)
(* ===================================================================== *)

Section DecimalFacts.

Lemma digit_value_char (d : N) : (d < 10)%N -> digit_value (digit_char d) = Some d.
Proof.
  intros Hd. unfold digit_value, digit_char.
  rewrite N_ascii_embedding by lia.
  destruct (N.leb_spec 48 (48 + d)); [|lia].
  destruct (N.leb_spec (48 + d) 57); [|lia].
  simpl. f_equal. lia.
Qed.

Lemma digit_char_not_space (d : N) : (d < 10)%N -> isspace (digit_char d) = false.
Proof.
  intros Hd. unfold isspace, digit_char. rewrite N_ascii_embedding by lia.
  destruct (N.eqb_spec (48 + d) 32); [lia|].
  destruct (N.leb_spec 9 (48 + d)); [|lia].
  destruct (N.leb_spec (48 + d) 13); [lia|]. reflexivity.
Qed.

Lemma digit_char_not_sign (d : N) :
  (d < 10)%N -> digit_char d <> "-"%char /\ digit_char d <> "+"%char.
Proof.
  intros Hd. split; intros Heq; apply (f_equal N_of_ascii) in Heq;
    unfold digit_char in Heq; rewrite N_ascii_embedding in Heq by lia.
  - change (N_of_ascii "-"%char) with 45%N in Heq. lia.
  - change (N_of_ascii "+"%char) with 43%N in Heq. lia.
Qed.

(** The digits [print_decimal] writes start with a digit, and reading them
    back gives the number, followed by what the tail gives. *)
Lemma print_decimal_scan (fuel : nat) :
  forall (n : N) (tail : string),
    (n < 10 ^ N.of_nat (S fuel))%N ->
    exists (d : N) (rest : string),
      print_decimal (S fuel) n tail = String (digit_char d) rest
      /\ (d < 10)%N
      /\ scan_digits rest d = scan_digits tail n.
Proof.
  induction fuel as [|fuel IH]; intros n tail Hn.
  - assert (Hlt : (n < 10)%N) by (change (10 ^ N.of_nat 1)%N with 10%N in Hn; lia).
    cbn [print_decimal]. destruct (N.ltb_spec n 10); [|lia].
    exists n, tail. rewrite N.mod_small by assumption. auto.
  - cbn [print_decimal]. destruct (N.ltb_spec n 10) as [Hlt|Hge].
    + exists n, tail. rewrite N.mod_small by assumption. auto.
    + fold (print_decimal (S fuel)).
      assert (Hdiv : (n / 10 < 10 ^ N.of_nat (S fuel))%N).
      { apply N.Div0.div_lt_upper_bound.
        rewrite <- N.pow_succ_r'. by rewrite <- Nat2N.inj_succ. }
      destruct (IH (n / 10)%N (String (digit_char (n mod 10)) tail) Hdiv)
        as (d & rest & Hprint & Hd & Hscan).
      exists d, rest. split; [exact Hprint|]. split; [exact Hd|].
      rewrite Hscan. cbn [scan_digits].
      rewrite digit_value_char by (apply N.mod_lt; lia).
      f_equal. pose proof (N.div_mod n 10). lia.
Qed.

Lemma as_time_t_unsigned (t : Z) :
  (- 2 ^ 63 <= t < 2 ^ 63)%Z -> as_time_t (as_unsigned_long t) = t.
Proof.
  intros Ht. unfold as_time_t, as_unsigned_long.
  destruct (Z_lt_le_dec t 0) as [Hneg|Hpos].
  - replace (t mod 2 ^ 64)%Z with (t + 2 ^ 64)%Z.
    + destruct (Z.ltb_spec (t + 2 ^ 64) (2 ^ 63)); lia.
    + symmetry. rewrite <- (Z.mod_add _ 1) by lia.
      rewrite Z.mul_1_l. apply Z.mod_small. lia.
  - rewrite Z.mod_small by lia. destruct (Z.ltb_spec t (2 ^ 63)); lia.
Qed.

(** Reading back what [printf("%lu\n")] wrote. *)
Lemma scan_lu_print_lu (t : Z) (rest : string) :
  (- 2 ^ 63 <= t < 2 ^ 63)%Z ->
  scan_lu (print_lu t +:+ String LF rest) = t.
Proof.
  intros Ht. unfold print_lu.
  set (u := as_unsigned_long t).
  assert (Hu : (0 <= u < 2 ^ 64)%Z) by (apply Z.mod_pos_bound; lia).
  assert (Hn : (Z.to_N u < 10 ^ N.of_nat 20)%N).
  { change (10 ^ N.of_nat 20)%N with 100000000000000000000%N. lia. }
  destruct (print_decimal_scan 19 (Z.to_N u) EmptyString Hn)
    as (d & digits & Hprint & Hd & Hscan).
  rewrite Hprint.
  change (String (digit_char d) digits +:+ String LF rest)
    with (String (digit_char d) (digits +:+ String LF rest)).
  unfold scan_lu. cbn [skip_spaces].
  rewrite digit_char_not_space by assumption.
  destruct (digit_char_not_sign d Hd) as [Hminus Hplus].
  assert (Hsplit : (match String (digit_char d) (digits +:+ String LF rest) with
                    | String "-"%char r => (true, r)
                    | String "+"%char r => (false, r)
                    | _ => (false, String (digit_char d) (digits +:+ String LF rest))
                    end) = (false, String (digit_char d) (digits +:+ String LF rest))).
  { destruct (digit_char d) as [[] [] [] [] [] [] [] []]; try reflexivity;
      exfalso; (by apply Hminus) || (by apply Hplus). }
  rewrite Hsplit. rewrite digit_value_char by assumption.
  assert (Happ : forall (s : string) (acc : N),
             scan_digits (s +:+ String LF rest) acc = scan_digits s acc).
  { induction s as [|c s IHs]; intros acc; simpl; [reflexivity|].
    destruct (digit_value c); [apply IHs|reflexivity]. }
  rewrite Happ, Hscan. simpl scan_digits.
  rewrite Z2N.id by lia.
  destruct (Z.leb_spec u (2 ^ 64 - 1)); [|lia].
  by apply as_time_t_unsigned.
Qed.

End DecimalFacts.

(* ===================================================================== *)
(** * The commands of main.cpp *)
(* ===================================================================== *)

Section CommandFacts.
Variables kBold kYellow kRed kReset : string.
Variables offYellow offRed offReset : string.
Variable Parse : string -> string -> BuildEvents -> BuildNames -> BuildEvents * BuildNames.
Variable Analysis : BuildEvents -> BuildNames -> string.

#[local] Abbreviation start := (RunStart kYellow kRed kReset).
#[local] Abbreviation one_test :=
  (RunOneTest kYellow kRed kReset offYellow offRed offReset Parse Analysis).
#[local] Abbreviation tests :=
  (RunTests kYellow kRed kReset offYellow offRed offReset Parse Analysis).
#[local] Abbreviation fails :=
  (fails_test kYellow kRed kReset offYellow offRed offReset Parse Analysis).
#[local] Abbreviation program :=
  (main kBold kYellow kRed kReset offYellow offRed offReset Parse Analysis).

(** X10: the session file [RunStart] writes is read back by
    [ReadSessionFile] as the time [RunStart] took from the clock: in the
    surroundings where that file holds that text, [ReadSessionFile] on the
    same directory returns the start time and prints nothing. *)
Theorem RunStart_ReadSessionFile (h : Host) (argv : list string) (w : World)
    (fname content : string) :
  (- 2 ^ 63 <= time_now (host_world h) < 2 ^ 63)%Z ->
  start_written (start h argv) = Some (fname, content) ->
  start_code (start h argv) = 0%Z
  /\ ReadSessionFile kRed kReset (with_session_file w fname content)
       (nth 2 argv EmptyString)
     = (Some (time_now (host_world h)), []).
Proof.
  intros Hrange Hwritten. unfold RunStart in *.
  destruct (Nat.ltb (length argv) 3); [discriminate|].
  destruct (can_create h _); [|discriminate]. simpl in *.
  injection Hwritten as <- <-. split; [reflexivity|].
  unfold ReadSessionFile. cbn [session_number with_session_file].
  rewrite String.eqb_refl. unfold nl. by rewrite scan_lu_print_lu.
Qed.

Lemma RunAnalyze_code (w : World) (argv : list string) :
  let r := RunAnalyze kYellow kRed kReset Parse Analysis w argv in
  retCode r = 0%Z \/ retCode r = 1%Z.
Proof.
  unfold RunAnalyze. destruct (Nat.ltb _ _); [by right|].
  destruct (ReadSessionFile _ _ _ _) as [[session|] err]; [|by right].
  destruct (files _); [by right|by left].
Qed.

Lemma tests_code_cases (h : Host) (argv : list string) :
  tests_code (tests h argv) = 0%Z \/ tests_code (tests h argv) = 1%Z.
Proof.
  unfold RunTests. destruct (Nat.ltb _ _); [by right|]. simpl.
  destruct (Nat.eqb _ 0); [by left|by right].
Qed.

(** X11: a command other than [--start], [--analyze] and [--test] is
    rejected: [main] returns 1, having printed the "unsupported" line and
    the usage, and no file is written.  This holds for [--stop], the command
    the message of [RunStart] tells the user to run. *)
Theorem main_rejects_other_commands (h : Host) (argv : list string) :
  nth 1 argv EmptyString <> "--start"%string ->
  nth 1 argv EmptyString <> "--analyze"%string ->
  nth 1 argv EmptyString <> "--test"%string ->
  exit_code (program h argv) = 1%Z
  /\ files_written (program h argv) = []
  /\ ((2 <= length argv)%nat ->
      program h argv = Rejected (msgUnsupported kRed kReset :: PrintUsage kBold kReset)).
Proof.
  intros Hstart Hanalyze Htest. unfold main, ProcessCommands.
  destruct (Nat.ltb_spec (length argv) 2) as [Hlt|Hge].
  - repeat split. lia.
  - destruct (String.eqb_spec (nth 1 argv EmptyString) "--start"); [contradiction|].
    destruct (String.eqb_spec (nth 1 argv EmptyString) "--analyze"); [contradiction|].
    destruct (String.eqb_spec (nth 1 argv EmptyString) "--test"); [contradiction|].
    repeat split.
Qed.

(** X12: whatever the arguments and the surroundings, [main] returns 0 or 1. *)
Theorem main_exit_code (h : Host) (argv : list string) :
  exit_code (program h argv) = 0%Z \/ exit_code (program h argv) = 1%Z.
Proof.
  unfold main, ProcessCommands.
  destruct (Nat.ltb (length argv) 2); [by right|].
  destruct (String.eqb _ "--start").
  { simpl. unfold RunStart. destruct (Nat.ltb _ _); [by right|].
    destruct (can_create h _); [by left|by right]. }
  destruct (String.eqb _ "--analyze"); [apply RunAnalyze_code|].
  destruct (String.eqb _ "--test"); [apply tests_code_cases|]. by right.
Qed.

Lemma foldl_tests_step_failures (h : Host) (items : list cf_dir_item) (st : TestsState) :
  failures (foldl (tests_step kYellow kRed kReset offYellow offRed offReset
                     Parse Analysis h) st items)
  = (failures st + length (List.filter (fails h) items))%nat.
Proof.
  revert st. induction items as [|it items IH]; intros st; simpl; [lia|].
  rewrite IH. unfold tests_step, fails_test.
  destruct (runnable it); simpl; [|lia].
  destruct (passed _); simpl; lia.
Qed.

(** X13: [RunTests] counts as failures exactly the entries that are
    directories, have a name not starting with a period and do not pass
    [RunOneTest]; other entries are not counted.  It returns 0 exactly when
    there is no such entry. *)
Theorem RunTests_failures (h : Host) (argv : list string) :
  (3 <= length argv)%nat ->
  let items := dir_items h (nth 2 argv EmptyString) in
  tests_failures (tests h argv) = length (List.filter (fails h) items)
  /\ (tests_code (tests h argv) = 0%Z
      <-> forall it : cf_dir_item,
            In it items -> is_dir it = true ->
            char_at (list_ascii_of_string (name (item_file it))) 0 <> "."%char ->
            passed (one_test h (path (item_file it))) = true).
Proof.
  intros Hargc items. unfold RunTests.
  destruct (Nat.ltb_spec (length argv) 3) as [Hlt|_]; [lia|]. cbn [tests_failures tests_code].
  rewrite foldl_tests_step_failures. simpl. fold items.
  split; [reflexivity|].
  destruct (Nat.eqb_spec (length (List.filter (fails h) items)) 0) as [Hz|Hnz].
  - split; [|reflexivity]. intros _ it Hin Hdir Hname.
    apply length_zero_iff_nil in Hz.
    destruct (passed (one_test h (path (item_file it)))) eqn:Hp; [reflexivity|].
    assert (Hf : In it (List.filter (fails h) items)).
    { apply filter_In. split; [assumption|]. unfold fails_test, runnable.
      rewrite Hdir, Hp. apply Ascii.eqb_neq in Hname. by rewrite Hname. }
    rewrite Hz in Hf. destruct Hf.
  - split; [discriminate|]. intros Hall. exfalso. apply Hnz.
    apply length_zero_iff_nil.
    destruct (List.filter (fails h) items) as [|it rest] eqn:Hf; [reflexivity|].
    assert (Hin : In it (List.filter (fails h) items)) by (rewrite Hf; by left).
    apply filter_In in Hin as [Hin Hfail]. unfold fails_test, runnable in Hfail.
    apply andb_prop in Hfail as [Hrun Hnp]. apply andb_prop in Hrun as [Hdir Hname].
    rewrite (Hall it Hin Hdir) in Hnp; [discriminate|].
    apply negb_true_iff in Hname. by apply Ascii.eqb_neq.
Qed.

Lemma RunAnalyze_success (cy cr cx : string) (w : World) (argv : list string) :
  retCode (RunAnalyze cy cr cx Parse Analysis w argv) = 0%Z ->
  exists session : Z,
    session_number w (nth 2 argv EmptyString +:+ "/ClangBuildAnalyzerSession.txt")
      = Some session
    /\ files (find_files w (nth 2 argv EmptyString) session) <> []
    /\ report (RunAnalyze cy cr cx Parse Analysis w argv)
       = Some (Analysis
                 (events (loop_result cy cx Parse w (nth 2 argv EmptyString) session))
                 (names (loop_result cy cx Parse w (nth 2 argv EmptyString) session))).
Proof.
  unfold RunAnalyze, ReadSessionFile.
  destruct (Nat.ltb _ _); [discriminate|].
  destruct (session_number w _) as [session|]; [|discriminate].
  destruct (files (find_files w _ session)) eqn:Hfiles; [discriminate|].
  intros _. exists session. rewrite Hfiles. repeat split. discriminate.
Qed.

(** X14: a test folder passes only if its two trace files compare equal, the
    output file can be created, and the analysis run on
    [folder/_TraceOutput.json] succeeds; so a session file has to be readable
    under that path and at least one candidate file has to be found there;
    and the analysis text has to compare equal to the expected text. *)
Theorem RunOneTest_passed (h : Host) (folder : string) :
  passed (one_test h folder) = true ->
  let w := during_test h folder in
  let traceFile := folder +:+ "/_TraceOutput.json" in
  same_text (ReadFileToString w traceFile)
            (ReadFileToString w (folder +:+ "/_TraceOutputExpected.json")) = true
  /\ can_create h (folder +:+ "/_AnalysisOutput.txt") = true
  /\ exists session : Z,
       session_number w (traceFile +:+ "/ClangBuildAnalyzerSession.txt") = Some session
       /\ files (find_files w traceFile session) <> []
       /\ same_text
            (Analysis (events (loop_result offYellow offReset Parse w traceFile session))
                      (names (loop_result offYellow offReset Parse w traceFile session)))
            (ReadFileToString w (folder +:+ "/_AnalysisOutputExpected.txt")) = true.
Proof.
  intros Hpass w traceFile. unfold RunOneTest in Hpass. fold w traceFile in Hpass.
  destruct (same_text (ReadFileToString w traceFile) _) eqn:Htrace;
    [|discriminate]. cbn [negb] in Hpass.
  destruct (can_create h _) eqn:Hcreate; [|discriminate]. cbn [negb] in Hpass.
  destruct (Z.eqb_spec
              (retCode (RunAnalyze offYellow offRed offReset Parse Analysis w
                          [EmptyString; "--analyze"%string; traceFile])) 0)
    as [Hcode|Hcode]; [|discriminate]. cbn [negb] in Hpass.
  destruct (RunAnalyze_success offYellow offRed offReset w
              [EmptyString; "--analyze"%string; traceFile] Hcode)
    as (session & Hsession & Hfiles & Hreport).
  rewrite Hreport in Hpass. cbn [default nth] in *.
  destruct (same_text _ (ReadFileToString w (folder +:+ "/_AnalysisOutputExpected.txt")))
    eqn:Hout; [|discriminate].
  split; [reflexivity|]. split; [reflexivity|].
  exists session. auto.
Qed.

End CommandFacts.

Lemma RunStart_ReadSessionFile_witness :
  ReadSessionFile "" ""
    (with_session_file world_two_units "out/ClangBuildAnalyzerSession.txt"
       (String "2" (String "0" (String "0" nl))))
    "out"
  = (Some 200%Z, []).
Proof.
  apply (RunStart_ReadSessionFile "" "" "" sample_host
           ["ClangBuildAnalyzer"; "--start"; "out"]%string world_two_units
           "out/ClangBuildAnalyzerSession.txt" (String "2" (String "0" (String "0" nl)))).
  - vm_compute. split; [discriminate|reflexivity].
  - vm_compute. reflexivity.
Defined.

Lemma main_rejects_other_commands_witness :
  exit_code (sample_main sample_host ["ClangBuildAnalyzer"; "--stop"; "out"; "x.bin"]%string)
  = 1%Z.
Proof.
  apply (main_rejects_other_commands "" "" "" "" "" "" "" (ParseBuildEvents sample_decode)
           sample_DoAnalysis sample_host); discriminate.
Defined.

Lemma RunTests_failures_witness :
  tests_failures
    (RunTests "" "" "" "" "" "" (ParseBuildEvents sample_decode) sample_DoAnalysis
       sample_host ["ClangBuildAnalyzer"; "--test"; "tests"]%string)
  = 1%nat.
Proof.
  destruct (RunTests_failures "" "" "" "" "" "" (ParseBuildEvents sample_decode)
              sample_DoAnalysis sample_host
              ["ClangBuildAnalyzer"; "--test"; "tests"]%string) as [Hcount _];
    [simpl; lia|].
  rewrite Hcount. vm_compute. reflexivity.
Defined.

Lemma RunOneTest_passed_witness :
  exists session : Z,
    session_number passing_world
      ("t/_TraceOutput.json" +:+ "/ClangBuildAnalyzerSession.txt") = Some session
    /\ files (find_files passing_world "t/_TraceOutput.json" session) <> [].
Proof.
  destruct (RunOneTest_passed "" "" "" "" "" "" (ParseBuildEvents sample_decode)
              sample_DoAnalysis passing_host "t")
    as (_ & _ & session & Hsession & Hfiles & _).
  - vm_compute. reflexivity.
  - exists session. split; assumption.
Defined.

(* ===================================================================== *)
(** * What reaches the parser, and what is reported *)
(* ===================================================================== *)

Section ParsedFiles.
Variables kYellow kRed kReset : string.
Variable Parse : string -> string -> BuildEvents -> BuildNames -> BuildEvents * BuildNames.
Variable Analysis : BuildEvents -> BuildNames -> string.

Lemma prefix_app (n h : string) :
  String.prefix n h = true <-> exists post : string, h = n +:+ post.
Proof.
  revert h. induction n as [|a n IH]; intros h.
  - split; [intros _; by exists h|intros _; by destruct h].
  - destruct h as [|b h]; simpl.
    + split; [discriminate|]. intros [post Hpost]. discriminate.
    + destruct (ascii_dec a b) as [->|Hne].
      * rewrite IH. split; intros [post Hpost]; exists post.
        -- simpl. by rewrite Hpost.
        -- simpl in Hpost. by injection Hpost.
      * split; [discriminate|]. intros [post Hpost]. simpl in Hpost.
        injection Hpost as Hab _. congruence.
Qed.

(** [strstr] finds the needle exactly when it occurs as a contiguous part. *)
Lemma strstr_occurs (h n : string) :
  strstr h n = true <-> exists pre post : string, h = pre +:+ n +:+ post.
Proof.
  induction h as [|c h IH]; cbn [strstr].
  - rewrite orb_false_r, prefix_app. split.
    + intros [post Hpost]. by exists EmptyString, post.
    + intros ([|c pre] & post & Hpre); [by exists post|discriminate].
  - rewrite orb_true_iff, prefix_app, IH. split.
    + intros [[post Hpost]|(pre & post & Hpre)].
      * by exists EmptyString, post.
      * exists (String c pre), post. simpl. by rewrite Hpre.
    + intros ([|c' pre] & post & Hpre).
      * left. by exists post.
      * right. simpl in Hpre. injection Hpre as _ Hh. by exists pre, post.
Qed.

#[local] Abbreviation step := (analyze_file kYellow kReset Parse).

(** X15: a readable file whose bytes before the first NUL contain the
    producer marker is handed to the parser, with its path and all of its
    bytes (also those after a NUL); store and name table become what the
    parser returns, and the only line that may be printed is the "no trace
    events" notice. *)
Theorem analyze_file_parses (w : World) (st : LoopState) (file : string) :
  ReadFileToString w file <> EmptyString ->
  (exists pre post : string,
      c_str (ReadFileToString w file) = pre +:+ clangMarker +:+ post) ->
  let parsed := Parse file (ReadFileToString w file) (events st) (names st) in
  events (step w st file) = fst parsed
  /\ names (step w st file) = snd parsed
  /\ (console (step w st file) = console st
      \/ console (step w st file) = console st ++ [msgNoTraceEvents kYellow kReset]).
Proof.
  intros Hread Hmarker parsed. apply strstr_occurs in Hmarker.
  rewrite (analyze_file_marked kYellow kReset Parse w st file Hread Hmarker).
  simpl. fold parsed. split; [reflexivity|]. split; [reflexivity|].
  destruct (fst parsed); [by right|left; by rewrite app_nil_r].
Qed.

Lemma analyze_file_console (w : World) (st : LoopState) (file : string) :
  exists extra : list string, console (step w st file) = console st ++ extra.
Proof.
  unfold analyze_file.
  destruct (String.eqb (ReadFileToString w file) EmptyString); [by eexists|].
  destruct (strstr _ _); simpl; [|exists []; by rewrite app_nil_r].
  destruct (Parse _ _ _ _) as [[|e ev] nm]; simpl;
    [by eexists|exists []; by rewrite app_nil_r].
Qed.

Lemma foldl_analyze_file_console (w : World) (fs : list string) (st : LoopState) :
  exists extra : list string,
    console (foldl (step w) st fs) = console st ++ extra.
Proof.
  revert st. induction fs as [|f fs IH]; intros st; simpl.
  - exists []. by rewrite app_nil_r.
  - destruct (IH (step w st f)) as [extra2 ->].
    destruct (analyze_file_console w st f) as [extra1 ->].
    exists (extra1 ++ extra2). by rewrite app_assoc.
Qed.

Lemma foldl_analyze_file_warns (w : World) (fs : list string) (st : LoopState)
    (file : string) :
  In file fs -> ReadFileToString w file = EmptyString ->
  In (msgCouldNotRead kYellow kReset file) (console (foldl (step w) st fs)).
Proof.
  intros Hin Hempty. revert st.
  induction fs as [|f fs IH]; intros st; [destruct Hin|]. simpl.
  destruct Hin as [->|Hin]; [|by apply IH].
  destruct (foldl_analyze_file_console w fs (step w st file)) as [extra ->].
  apply in_or_app. left. unfold analyze_file. rewrite Hempty. simpl.
  apply in_or_app. right. by left.
Qed.

(** X16: every candidate file that cannot be opened, or is empty, is named
    in a "could not read file" warning of the run, and the run still
    succeeds. *)
Theorem RunAnalyze_warns_unreadable (w : World) (argv : list string)
    (session : Z) (file : string) :
  (3 <= length argv)%nat ->
  session_number w (nth 2 argv EmptyString +:+ "/ClangBuildAnalyzerSession.txt")
    = Some session ->
  In file (files (find_files w (nth 2 argv EmptyString) session)) ->
  ReadFileToString w file = EmptyString ->
  let r := RunAnalyze kYellow kRed kReset Parse Analysis w argv in
  retCode r = 0%Z /\ In (msgCouldNotRead kYellow kReset file) (printed r).
Proof.
  intros Hargc Hsession Hin Hempty. unfold RunAnalyze, ReadSessionFile.
  destruct (Nat.ltb_spec (length argv) 3); [lia|]. rewrite Hsession.
  unfold loop_result.
  destruct (files (find_files w (nth 2 argv EmptyString) session)) as [|f fs] eqn:Hfiles;
    [destruct Hin|].
  cbn [retCode printed]. split; [reflexivity|].
  apply in_or_app. left. by apply foldl_analyze_file_warns.
Qed.

(** X17: a session file that holds no number is not an error: when the text
    after leading white space does not start with a digit or a sign,
    [ReadSessionFile] reports the start time 0 and prints nothing. *)
Theorem ReadSessionFile_no_number (w : World) (root content : string) :
  (forall (c : ascii) (rest : string),
      skip_spaces content = String c rest ->
      digit_value c = None /\ c <> "-"%char /\ c <> "+"%char) ->
  ReadSessionFile kRed kReset
    (with_session_file w (root +:+ "/ClangBuildAnalyzerSession.txt") content) root
  = (Some 0%Z, []).
Proof.
  intros Hfirst. unfold ReadSessionFile. cbn [session_number with_session_file].
  rewrite String.eqb_refl. do 2 f_equal. unfold scan_lu.
  destruct (skip_spaces content) as [|c rest] eqn:Hskip; [reflexivity|].
  destruct (Hfirst c rest eq_refl) as (Hdigit & Hminus & Hplus).
  assert (Hsplit : (match String c rest with
                    | String "-"%char r => (true, r)
                    | String "+"%char r => (false, r)
                    | _ => (false, String c rest)
                    end) = (false, String c rest)).
  { destruct c as [[] [] [] [] [] [] [] []]; try reflexivity;
      exfalso; (by apply Hminus) || (by apply Hplus). }
  rewrite Hsplit. by rewrite Hdigit.
Qed.

End ParsedFiles.

Lemma analyze_file_parses_witness :
  events (sample_step world_two_units sample_start "out/a.json")
  = fst (ParseBuildEvents sample_decode "out/a.json" doc_foo_100 [] bimap_empty).
Proof.
  apply (analyze_file_parses "" "" (ParseBuildEvents sample_decode)
           world_two_units sample_start "out/a.json").
  - vm_compute. discriminate.
  - exists ("{" +:+ quoted "traceEvents" +:+ ":["
            +:+ event_json "InstantiateFunction" "foo" "10" "100" +:+ ","),
           "]}"%string.
    vm_compute. reflexivity.
Defined.

Lemma RunAnalyze_warns_unreadable_witness :
  retCode (sample_run world_empty_file) = 0%Z
  /\ In (msgCouldNotRead "" "" "out/a.json") (printed (sample_run world_empty_file)).
Proof.
  apply (RunAnalyze_warns_unreadable "" "" "" (ParseBuildEvents sample_decode)
           sample_DoAnalysis world_empty_file sample_argv 100 "out/a.json").
  - simpl. lia.
  - vm_compute. reflexivity.
  - vm_compute. tauto.
  - vm_compute. reflexivity.
Defined.

Lemma ReadSessionFile_no_number_witness :
  ReadSessionFile "" ""
    (with_session_file world_two_units ("out" +:+ "/ClangBuildAnalyzerSession.txt")
       "started")
    "out"
  = (Some 0%Z, []).
Proof.
  apply ReadSessionFile_no_number. intros c rest Hskip.
  simpl in Hskip. inversion Hskip; subst.
  split; [vm_compute; reflexivity|split; discriminate].
Defined.

(* ===================================================================== *)
(** * From --start to --analyze *)
(* ===================================================================== *)

Section StartThenAnalyze.
Variables kYellow kRed kReset : string.
Variable Parse : string -> string -> BuildEvents -> BuildNames -> BuildEvents * BuildNames.
Variable Analysis : BuildEvents -> BuildNames -> string.

Lemma find_files_nonempty (w : World) (inFile : string) (session : Z) :
  files (find_files w inFile session) <> []
  <-> exists f : cf_file_t,
        In f (cf_traverse w inFile)
        /\ cf_get_ext w f = Some ".json"%string
        /\ exists t : Z, cf_get_file_time w (path f) = Some t
                         /\ (session <= t <= time_now w)%Z.
Proof.
  split.
  - intros Hne. destruct (files (find_files w inFile session)) as [|x rest] eqn:Hfiles;
      [contradiction|].
    assert (Hin : In x (files (find_files w inFile session)))
      by (rewrite Hfiles; by left).
    unfold find_files in Hin. apply foldl_OnFile_In in Hin.
    destruct Hin as [[]|(f & Hf & [Hext Ht] & _)]. exists f. auto.
  - intros (f & Hf & Hext & Ht) Hnil.
    assert (Hin : In (replace backslash slash (path f))
                     (files (find_files w inFile session))).
    { unfold find_files. apply foldl_OnFile_In. right. exists f.
      split; [assumption|]. split; [|reflexivity]. by split. }
    rewrite Hnil in Hin. destruct Hin.
Qed.

(** X18: after [RunStart] has written the session file of a directory, a
    later [RunAnalyze] on that directory succeeds exactly when the traversal
    meets a [".json"] file whose modification time can be read and lies
    between the time of the start and the time of the analysis (both
    included). *)
Theorem start_then_analyze (h : Host) (argv : list string) (w : World)
    (fname content program command : string) :
  (- 2 ^ 63 <= time_now (host_world h) < 2 ^ 63)%Z ->
  start_written (RunStart kYellow kRed kReset h argv) = Some (fname, content) ->
  let dir := nth 2 argv EmptyString in
  retCode (RunAnalyze kYellow kRed kReset Parse Analysis
             (with_session_file w fname content) [program; command; dir]) = 0%Z
  <-> exists f : cf_file_t,
        In f (cf_traverse w dir)
        /\ cf_get_ext w f = Some ".json"%string
        /\ exists t : Z, cf_get_file_time w (path f) = Some t
                         /\ (time_now (host_world h) <= t <= time_now w)%Z.
Proof.
  intros Hrange Hwritten dir. unfold RunStart in Hwritten.
  destruct (Nat.ltb (length argv) 3); [discriminate|].
  destruct (can_create h _); [|discriminate]. simpl in Hwritten.
  injection Hwritten as <- <-. fold dir.
  rewrite <- (find_files_nonempty w dir (time_now (host_world h))).
  unfold RunAnalyze, ReadSessionFile. cbn [length Nat.ltb Nat.leb nth].
  cbn [session_number with_session_file]. rewrite String.eqb_refl.
  unfold nl. rewrite scan_lu_print_lu by assumption.
  change (find_files (with_session_file w _ _) dir (time_now (host_world h)))
    with (find_files w dir (time_now (host_world h))).
  destruct (files (find_files w dir (time_now (host_world h)))); cbn [retCode].
  - split; [discriminate|]. intros Hne. by contradiction Hne.
  - split; [intros _; discriminate|reflexivity].
Qed.

End StartThenAnalyze.

Lemma start_then_analyze_witness :
  retCode (RunAnalyze "" "" "" (ParseBuildEvents sample_decode) sample_DoAnalysis
             (with_session_file passing_world "out/ClangBuildAnalyzerSession.txt"
                (String "1" (String "2" (String "0" nl))))
             ["ClangBuildAnalyzer"; "--analyze"; "out"]%string) = 0%Z.
Proof.
  apply (start_then_analyze "" "" "" (ParseBuildEvents sample_decode)
           sample_DoAnalysis early_host
           ["ClangBuildAnalyzer"; "--start"; "out"]%string passing_world
           "out/ClangBuildAnalyzerSession.txt"
           (String "1" (String "2" (String "0" nl)))
           "ClangBuildAnalyzer" "--analyze").
  - vm_compute. split; [discriminate|reflexivity].
  - vm_compute. reflexivity.
  - exists file_a. split; [by left|]. split; [vm_compute; reflexivity|].
    exists 150%Z. split; [reflexivity|]. vm_compute. split; discriminate.
Defined.
